(** * EAdash: the filter and view pipeline of [app.py]

    A shallow embedding of the Streamlit script [app.py]: the data frame
    loaded from [EA.csv], the six sidebar filters, and the derived views
    (attrition rate, cross-tabulations, correlation guard, CSV export,
    pivot builder), followed by the properties the specification states
    about them.

    The script is glue over pandas and Streamlit; the calls it makes are
    modelled by their documented behaviour on the values the script
    passes to them:
    - a frame is a schema (column names with their dtype) and rows of
      cells, each row carrying its index label;
    - rates, normalized counts and float cells are exact rationals,
      standing for the floating-point numbers of the script;
    - a CSV file is its records of fields; how the parser reads a field
      as a number and how a float is written are parameters, and so is
      the parser's treatment of irregular files;
    - [pd.pivot_table] and the drawing of a figure are parameters of
      the script: either may raise. *)

From Stdlib Require Import ZArith QArith Qcanon String Ascii.
From Stdlib Require Import DecimalString DecimalZ DecimalPos.
From stdpp Require Import base option list strings gmap sorting.

Local Open Scope string_scope.
Local Open Scope list_scope.

(** ** Cells, columns and data frames *)

(** A cell of a frame read by [pd.read_csv]: a string, an integer (the
    cells of an int64 column), a float (the cells of a float64 column;
    an exact rational stands for the double), a boolean, or the missing
    value NaN. *)
Inductive value :=
| VStr (s : string)
| VNum (z : Z)
| VFloat (x : Qc)
| VBool (b : bool)
| VNaN.

Global Instance value_eq_dec : EqDecision value.
Proof. solve_decision. Defined.

Definition notna (v : value) : Prop := v ≠ VNaN.

(** The dtype pandas records per column, as far as the script tells
    dtypes apart: object, numeric (int64 or float64) or boolean; it is
    fixed when the file is read and survives row selection. *)
Inductive dtype := Object | Numeric | Boolean.

Global Instance dtype_eq_dec : EqDecision dtype.
Proof. solve_decision. Defined.

Record column := Col { col_name : string; col_dtype : dtype }.

Global Instance column_eq_dec : EqDecision column.
Proof. solve_decision. Defined.

(** A row keeps its index label (the position it had in the file) and one
    cell per column. *)
Record row := Row { label : nat; cells : list value }.

Global Instance row_eq_dec : EqDecision row.
Proof. solve_decision. Defined.

(** A frame: its columns in order, and its rows in order.  The frames of
    the script come from [pd.read_csv], which makes column names
    distinct; where a name occurred twice, a lookup would take the first. *)
Record DataFrame := Frame { schema : list column; rows : list row }.

Global Instance DataFrame_eq_dec : EqDecision DataFrame.
Proof. solve_decision. Defined.

(** [df.columns] *)
Definition columns (df : DataFrame) : list string := col_name <$> schema df.

Fixpoint index_of (c : string) (names : list string) : option nat :=
  match names with
  | [] => None
  | n :: names' => if decide (c = n) then Some 0 else S <$> index_of c names'
  end.

(** The cell of row [r] under column [c]; a row too short for the header
    reads as NaN. *)
Definition cell (df : DataFrame) (c : string) (r : row) : value :=
  default VNaN (i ← index_of c (columns df); cells r !! i).

(** [df[col]]: the column as a series, in row order. *)
Definition getitem (df : DataFrame) (c : string) : list value :=
  cell df c <$> rows df.

(** [Series.isin(values)]: one boolean per row; NaN matches NaN. *)
Definition isin (s : list value) (values : list value) : list bool :=
  (λ v, bool_decide (v ∈ values)) <$> s.

(** [df[mask]]: boolean indexing keeps, in order and with their labels,
    the rows whose mask entry is true; the result is a new frame. *)
Fixpoint mask_rows (rs : list row) (mask : list bool) : list row :=
  match rs, mask with
  | r :: rs', b :: mask' =>
      if b then r :: mask_rows rs' mask' else mask_rows rs' mask'
  | _, _ => []
  end.

Definition getitem_mask (df : DataFrame) (mask : list bool) : DataFrame :=
  {| schema := schema df; rows := mask_rows (rows df) mask |}.

(** [Series.unique().tolist()]: distinct values in order of first
    appearance. *)
Fixpoint unique (s : list value) : list value :=
  match s with
  | [] => []
  | v :: s' => v :: filter (λ w, w ≠ v) (unique s')
  end.

(** Truth value of a Python list. *)
Definition truthy {A} (l : list A) : bool :=
  match l with [] => false | _ => true end.

(** ** Sidebar filters (app.py, lines 21-45) *)

Definition safe_unique (df : DataFrame) (col : string) : list value :=
  if decide (col ∈ columns df) then unique (getitem df col) else [].

(** The six selections returned by the sidebar multiselects. *)
Record Selections := {
  selected_depts : list value;
  selected_roles : list value;
  selected_genders : list value;
  selected_education : list value;
  selected_marital : list value;
  selected_overtime : list value
}.

Definition FILTER_COLUMNS : list string :=
  ["Department"; "JobRole"; "Gender"; "Education"; "MaritalStatus"; "OverTime"].

Definition selection_list (sel : Selections) : list (list value) :=
  [selected_depts sel; selected_roles sel; selected_genders sel;
   selected_education sel; selected_marital sel; selected_overtime sel].

(** The pairs the [for] loop iterates over. *)
Definition filter_pairs (sel : Selections) : list (string * list value) :=
  zip FILTER_COLUMNS (selection_list sel).

(** One iteration of the loop body. *)
Definition filter_step (filtered_df : DataFrame) (cs : string * list value)
  : DataFrame :=
  if bool_decide (cs.1 ∈ columns filtered_df) && truthy cs.2
  then getitem_mask filtered_df (isin (getitem filtered_df cs.1) cs.2)
  else filtered_df.

Definition apply_filters (l : list (string * list value)) (df : DataFrame)
  : DataFrame :=
  foldl filter_step df l.

(** [filtered_df] after the loop, as a function of the loaded frame. *)
Definition filtered_df (df : DataFrame) (sel : Selections) : DataFrame :=
  apply_filters (filter_pairs sel) df.

(** *** The same lines over an object store

    [df.copy()] and boolean indexing each allocate a new frame object;
    assignment rebinds the variable [filtered_df].  The store maps object
    identities to frames. *)

Definition loc := nat.

Definition alloc (h : gmap loc DataFrame) (d : DataFrame)
  : loc * gmap loc DataFrame :=
  let l := fresh (dom h) in (l, <[l := d]> h).

(** [df.copy()] *)
Definition copy (h : gmap loc DataFrame) (l : loc)
  : option (loc * gmap loc DataFrame) :=
  d ← h !! l; Some (alloc h d).

(** The loop body on the store: reads the object bound to [filtered_df],
    and when the filter applies binds the variable to a new object. *)
Definition filter_step_store (st : loc * gmap loc DataFrame)
    (cs : string * list value) : option (loc * gmap loc DataFrame) :=
  let '(l, h) := st in
  d ← h !! l;
  if bool_decide (cs.1 ∈ columns d) && truthy cs.2
  then Some (alloc h (getitem_mask d (isin (getitem d cs.1) cs.2)))
  else Some (l, h).

Fixpoint filter_loop_store (l : list (string * list value))
    (st : loc * gmap loc DataFrame) : option (loc * gmap loc DataFrame) :=
  match l with
  | [] => Some st
  | cs :: l' => st' ← filter_step_store st cs; filter_loop_store l' st'
  end.

(** Lines 39-45 run on a store in which [df] is bound to [ldf]: returns
    the object bound to [filtered_df] and the final store. *)
Definition run_filters (h : gmap loc DataFrame) (ldf : loc) (sel : Selections)
  : option (loc * gmap loc DataFrame) :=
  st ← copy h ldf; filter_loop_store (filter_pairs sel) st.

(** ** Derived computations *)

(** What a pandas or Streamlit call raises; the payload is the message
    printed for it. *)
Inductive Exception :=
| AttributeError (msg : string)
| ValueError (msg : string)
| LibraryError (msg : string).

Definition message (e : Exception) : string :=
  match e with
  | AttributeError m | ValueError m | LibraryError m => m
  end.

(** The dtype of a column of the frame. *)
Definition dtype_of (df : DataFrame) (c : string) : option dtype :=
  i ← index_of c (columns df); col_dtype <$> schema df !! i.

(** *** Attrition rate (line 62) *)

Definition lower_ascii (a : ascii) : ascii :=
  let n := nat_of_ascii a in
  if (65 <=? n)%nat && (n <=? 90)%nat then ascii_of_nat (n + 32) else a.

Fixpoint lower (s : string) : string :=
  match s with
  | EmptyString => EmptyString
  | String a s' => String (lower_ascii a) (lower s')
  end.

Definition is_boolean (v : value) : bool :=
  match v with VBool _ => true | _ => false end.

Definition is_number (v : value) : bool :=
  match v with VNum _ | VFloat _ => true | _ => false end.

(** What pandas makes of the values of an object column when [.str] is
    asked for: missing values are skipped, and the values left are
    refused when they are all booleans or all numbers (no value, strings
    and mixtures pass). *)
Definition str_values (s : list value) : bool :=
  let present := filter notna s in
  negb (truthy present
        && (forallb is_boolean present || forallb is_number present)).

(** [Series.str]: the accessor exists on object columns only, and only
    on those whose values pass [str_values]. *)
Definition str_accessor (dt : dtype) (s : list value)
  : Exception + list value :=
  match dt with
  | Object =>
      if str_values s then inr s
      else inl (AttributeError "Can only use .str accessor with string values!")
  | _ => inl (AttributeError "Can only use .str accessor with string values!")
  end.

(** [.str.lower()]: strings are lowered, every other cell becomes NaN. *)
Definition str_lower (s : list value) : list value :=
  (λ v, match v with VStr x => VStr (lower x) | _ => VNaN end) <$> s.

(** [.eq('yes')] *)
Definition eq_value (s : list value) (v : value) : list bool :=
  (λ w, bool_decide (w = v)) <$> s.

Definition count_true (bs : list bool) : nat := length (filter Is_true bs).

(** [.mean()] of a boolean series: the fraction of true entries, NaN
    ([None]) on the empty series.  Exact rationals stand for the
    floating-point quotient. *)
Definition mean (bs : list bool) : option Q :=
  match bs with
  | [] => None
  | _ => Some (Z.of_nat (count_true bs) # Pos.of_nat (length bs))
  end.

(** [100 * x], NaN staying NaN. *)
Definition times100 (x : option Q) : option Q := (λ q, 100 * q)%Q <$> x.

(** Line 62: the conditional expression bound to [attrition_rate]. *)
Definition attrition_rate (fdf : DataFrame) : Exception + option Q :=
  if decide ("Attrition" ∈ columns fdf) then
    match str_accessor (default Object (dtype_of fdf "Attrition"))
                       (getitem fdf "Attrition") with
    | inr s => inr (times100 (mean (eq_value (str_lower s) (VStr "yes"))))
    | inl e => inl e
    end
  else inr None.

(** What [st.metric] is given on line 63: the rate printed with two
    decimals, or the string N/A when the rate is NaN. *)
Inductive metric_value := NotAvailable | TwoDecimals (q : Q).

Definition format_rate (r : option Q) : metric_value :=
  match r with
  | Some q => TwoDecimals q
  | None => NotAvailable
  end.

(** *** Cross-tabulation (lines 72, 106, 114) *)

Definition value_rank (v : value) : nat :=
  match v with
  | VBool _ => 0 | VNum _ | VFloat _ => 1 | VStr _ => 2 | VNaN => 3
  end.

(** The order in which group labels are laid out: sorted, labels of
    different kinds by kind. *)
Definition value_leb (v w : value) : bool :=
  match v, w with
  | VBool a, VBool b => implb a b
  | VNum a, VNum b => (a <=? b)%Z
  | VNum a, VFloat y => Qle_bool (inject_Z a) y
  | VFloat x, VNum b => Qle_bool x (inject_Z b)
  | VFloat x, VFloat y => Qle_bool x y
  | VStr a, VStr b => String.leb a b
  | _, _ => (value_rank v <=? value_rank w)%nat
  end.

Definition sort_values (l : list value) : list value :=
  merge_sort (λ v w, Is_true (value_leb v w)) l.

Record Crosstab := {
  ct_index : list value;
  ct_columns : list value;
  ct_values : list (list Q)
}.

(** The (row label, column label) pairs that enter the table: pairs with
    a missing label are dropped. *)
Definition crosstab_pairs (a b : list value) : list (value * value) :=
  filter (λ p, notna p.1 ∧ notna p.2) (zip a b).

Definition count_pair (ps : list (value * value)) (g c : value) : nat :=
  length (filter (λ p, p = (g, c)) ps).

Definition Qsum (l : list Q) : Q := foldr Qplus 0%Q l.

(** [normalize='index']: every count divided by the sum of its row
    (0 where the division is undefined). *)
Definition normalize_row (counts : list nat) : list Q :=
  let total := Z.of_nat (sum_list counts) in
  (λ n, inject_Z (Z.of_nat n) / inject_Z total)%Q <$> counts.

(** [pd.crosstab(a, b, normalize='index')] *)
Definition crosstab (a b : list value) : Crosstab :=
  let ps := crosstab_pairs a b in
  let idx := sort_values (unique ps.*1) in
  let cols := sort_values (unique ps.*2) in
  {| ct_index := idx;
     ct_columns := cols;
     ct_values := (λ g, normalize_row (count_pair ps g <$> cols)) <$> idx |}.

(** *** Correlation guard (lines 133-134) *)

(** [select_dtypes(include=np.number).columns] *)
Definition num_cols (df : DataFrame) : list string :=
  col_name <$> filter (λ c, col_dtype c = Numeric) (schema df).

(** *** Summary statistics (line 174) *)

Definition count_notna (s : list value) : nat := length (filter notna s).

(** [describe(include='all')]: the count row of the summary (the other
    statistics are not modelled); a frame without columns is refused. *)
Definition describe (df : DataFrame) : Exception + list (string * nat) :=
  match columns df with
  | [] => inl (ValueError "Cannot describe a DataFrame without columns")
  | cs => inr ((λ c, (c, count_notna (getitem df c))) <$> cs)
  end.

(** *** CSV export (line 165) *)

(** The text written for an integer. *)
Definition number_text (z : Z) : string :=
  NilZero.string_of_int (Z.to_int z).

Section ToCsv.

(** The text pandas writes for a float: the shortest decimal that
    denotes the double, as in [1.0], [0.5] or [1e+16]. *)
Variable float_repr : Qc → string.

(** The text [to_csv] writes for a cell; NaN is written as the empty
    field. *)
Definition cell_text (v : value) : string :=
  match v with
  | VStr s => s
  | VNum z => number_text z
  | VFloat x => float_repr x
  | VBool true => "True"
  | VBool false => "False"
  | VNaN => ""
  end.

(** [to_csv(index=False)] as records of fields: the header, then one
    record per row in row order.  (Quoting of fields and line breaks is
    the csv writer's concern and is read back by the parser.) *)
Definition to_csv (df : DataFrame) : list (list string) :=
  columns df :: ((λ r, cell_text <$> cells r) <$> rows df).

End ToCsv.

(** ** Reading a file ([pd.read_csv], line 13, on records of fields)

    A file is taken as its records of fields, the first record being the
    header. *)

(** The strings the parser takes for a missing value. *)
Definition NA_VALUES : list string :=
  [""; "#N/A"; "#N/A N/A"; "#NA"; "-1.#IND"; "-1.#QNAN"; "-NaN"; "-nan";
   "1.#IND"; "1.#QNAN"; "<NA>"; "N/A"; "NA"; "NULL"; "NaN"; "None"; "n/a";
   "nan"; "null"].

Definition is_na (f : string) : bool := bool_decide (f ∈ NA_VALUES).

Definition parse_bool (f : string) : option bool :=
  if bool_decide (f ∈ ["True"; "TRUE"; "true"]) then Some true
  else if bool_decide (f ∈ ["False"; "FALSE"; "false"]) then Some false
  else None.

(** The integer a decimal field denotes. *)
Definition parse_decimal (f : string) : option Z :=
  Z.of_int <$> NilZero.int_of_string f.

(** What the parser reads a field as, when it reads it as a number: an
    integer that fits an integer column, or a float. *)
Inductive number := Int (z : Z) | Float (x : Qc).

Definition number_value (n : number) : value :=
  match n with Int z => VNum z | Float x => VFloat x end.

(** The float an integer becomes in a float column. *)
Definition to_float (n : number) : Qc :=
  match n with Int z => Q2Qc (inject_Z z) | Float x => x end.

Definition is_int (n : option number) : bool :=
  match n with Some (Int _) => true | _ => false end.

(** The field is a boolean literal; it is one, or is missing. *)
Definition boolean_field (f : string) : bool :=
  bool_decide (is_Some (parse_bool f)).

Definition boolean_or_na (f : string) : bool := is_na f || boolean_field f.

(** How the parser converts the fields of one column. *)
Inductive kind := KInt | KFloat | KBoolean | KBooleanNA | KText.

Definition kind_dtype (k : kind) : dtype :=
  match k with
  | KInt | KFloat => Numeric
  | KBoolean => Boolean
  | KBooleanNA | KText => Object
  end.

(** A regular file: the header names its columns with distinct,
    non-empty names, and no record has more fields than the header.
    (On other files pandas renames columns, takes the first field of
    each record as the index, or gives up.) *)
Definition clean_names (names : list string) : Prop :=
  names ≠ [] ∧ NoDup names ∧ ("" ∉ names).

Definition regular (header : list string) (body : list (list string))
  : Prop :=
  clean_names header
  ∧ Forall (λ rec, (length rec ≤ length header)%nat) body.

Global Instance clean_names_dec names : Decision (clean_names names).
Proof. unfold clean_names. apply _. Defined.

Global Instance regular_dec header body : Decision (regular header body).
Proof. unfold regular. apply _. Defined.

Section ReadCsv.

(** The parser's reading of a field as a number ([None]: not a number,
    or an integer too large for any integer column). *)
Variable parse_number : string → option number.

(** What the parser makes of a file that is not regular. *)
Variable read_irregular : list (list string) → Exception + DataFrame.

(** Type inference over the fields of one column.  Without a record the
    column is an object column.  Otherwise: numbers if every field is
    missing or a number (integers if every field is an integer, else
    floats); else booleans if every field is a boolean literal; else
    booleans with missing values; else text. *)
Definition number_or_na (f : string) : bool :=
  is_na f || bool_decide (is_Some (parse_number f)).

Definition integer_field (f : string) : bool :=
  negb (is_na f) && is_int (parse_number f).

Definition infer_kind (fields : list string) : kind :=
  match fields with
  | [] => KText
  | _ =>
      if forallb number_or_na fields
      then if forallb integer_field fields then KInt else KFloat
      else if forallb boolean_field fields then KBoolean
      else if forallb boolean_or_na fields then KBooleanNA
      else KText
  end.

Definition convert (k : kind) (f : string) : value :=
  if is_na f then VNaN
  else match k with
       | KInt => from_option number_value VNaN (parse_number f)
       | KFloat => from_option (λ n, VFloat (to_float n)) VNaN
                               (parse_number f)
       | KBoolean | KBooleanNA => from_option VBool VNaN (parse_bool f)
       | KText => VStr f
       end.

(** Field [j] of a record; a record shorter than the header is filled
    up with missing fields. *)
Definition field (rec : list string) (j : nat) : string :=
  default "" (rec !! j).

(** The fields of column [j], one per record. *)
Definition column_fields (body : list (list string)) (j : nat) : list string :=
  (λ rec, field rec j) <$> body.

(** The frame read from a regular file: one column per header name,
    rows numbered from 0. *)
Definition read_regular (header : list string) (body : list (list string))
  : DataFrame :=
  let kinds := (λ j, infer_kind (column_fields body j))
                 <$> seq 0 (length header) in
  {| schema := zip_with Col header (kind_dtype <$> kinds);
     rows := imap (λ i rec, Row i (imap (λ j k, convert k (field rec j))
                                        kinds)) body |}.

(** [pd.read_csv]: the first record is the header.  A file without a
    header is refused ([EmptyDataError], a [ValueError]). *)
Definition read_csv (recs : list (list string)) : Exception + DataFrame :=
  match recs with
  | [] => inl (ValueError "No columns to parse from file")
  | header :: body =>
      if decide (regular header body) then inr (read_regular header body)
      else read_irregular recs
  end.

(** Lines 12-16: the frame the script works on is what [pd.read_csv]
    makes of the records of [EA.csv]. *)
Definition load_data (EA_csv : list (list string)) : Exception + DataFrame :=
  read_csv EA_csv.

End ReadCsv.

(** ** Streamlit widgets *)

(** What the session remembers of a widget the user has touched. *)
Inductive widget_value := WList (l : list value) | WStr (s : string).

(** [st.multiselect(label, options, default=default)]: the user's last
    choice, the default while the widget is untouched. *)
Definition multiselect (ss : gmap string widget_value) (lbl : string)
    (options default_ : list value) : list value :=
  match ss !! lbl with
  | Some (WList l) => l
  | _ => default_
  end.

(** [st.selectbox(label, options, key=key)] with its default [index=0]:
    the user's choice when it is one of the options, else the first
    option; [None] only when there is no option. *)
Definition selectbox (ss : gmap string widget_value) (options : list string)
    (key : string) : option string :=
  match ss !! key with
  | Some (WStr s) => if decide (s ∈ options) then Some s else head options
  | _ => head options
  end.

(** Truth value of a Python string or [None]. *)
Definition truthy_str (s : option string) : bool :=
  match s with
  | Some (String _ _) => true
  | _ => false
  end.

(** The selections of a render pass (lines 25-37). *)
Definition sidebar_selections (df : DataFrame) (ss : gmap string widget_value)
  : Selections :=
  let dept_options := safe_unique df "Department" in
  let jobrole_options := safe_unique df "JobRole" in
  let gender_options := safe_unique df "Gender" in
  let education_options := safe_unique df "Education" in
  let marital_options := safe_unique df "MaritalStatus" in
  let overtime_options := safe_unique df "OverTime" in
  {| selected_depts := multiselect ss "Department" dept_options dept_options;
     selected_roles := multiselect ss "Job Role" jobrole_options jobrole_options;
     selected_genders := multiselect ss "Gender" gender_options gender_options;
     selected_education :=
       multiselect ss "Education" education_options education_options;
     selected_marital :=
       multiselect ss "Marital Status" marital_options marital_options;
     selected_overtime :=
       multiselect ss "OverTime" overtime_options overtime_options |}.

Definition AGGREGATIONS : list string := ["count"; "mean"; "sum"; "min"; "max"].

(** ** The page: elements a render pass emits *)

Inductive container := Sidebar | Page | Tab (n : nat).

(** The plotly express figures of the script, with the columns they are
    drawn from (styling arguments are left out). *)
Inductive chart :=
| PxPie (names title : string)
| PxBar (ct : Crosstab) (title : string)
| PxHistogram (x : string) (color : option string) (title : string)
| PxBox (x y title : string)
| PxViolin (x y title : string)
| PxSunburst (path : list string) (title : string).

Definition chart_title (c : chart) : string :=
  match c with
  | PxPie _ t | PxBar _ t | PxHistogram _ _ t | PxBox _ _ t
  | PxViolin _ _ t | PxSunburst _ t => t
  end.

(** What the script has drawn: a plotly express figure shown with
    [st.plotly_chart], or the heatmap of the correlation matrix of the
    given columns shown with [st.pyplot]. *)
Inductive figure := Plotly (c : chart) | Heatmap (cols : list string).

Section Script.

(** The text pandas writes for a float ([to_csv]). *)
Variable float_repr : Qc → string.

(** Drawing a figure over the frame is a call into plotly, seaborn and
    Streamlit, which check their arguments against the data (so
    [px.sunburst] refuses a missing Department or JobRole above a present
    value): [None] when the figure is drawn, the exception when the call
    raises. *)
Variable drawing_error : DataFrame → figure → option Exception.

(** The result type of [pd.pivot_table] and the function itself: the
    frame and the values of the three select boxes ([index], [columns],
    [aggfunc]) go in, a table or an exception comes out. *)
Context {Pivot : Type}.
Variable pd_pivot_table :
  DataFrame → option string → option string → option string
  → Exception + Pivot.

(** The elements the [st.*] calls of the script put on the page.  The
    heatmap carries the columns of the correlation matrix (its entries
    are not modelled), [StSummary] the result of [describe], [StPivot]
    the pivot table. *)
Inductive element :=
| StTitle (s : string)
| StWrite (s : string)
| StTabs (names : list string)
| StHeader (s : string)
| StMarkdown (s : string)
| StMetric (lbl : string) (v : metric_value)
| StPlotlyChart (c : chart)
| StPyplotHeatmap (cols : list string)
| StDataframe (d : DataFrame)
| StSummary (s : list (string * nat))
| StPivot (pt : Pivot)
| StDownloadButton (lbl : string) (data : list (list string))
                   (file_name mime : string)
| StMultiselect (lbl : string) (options selection : list value)
| StSelectbox (lbl : string) (options : list string) (v : option string)
| StWarning (s : string)
| StCaption (s : string).

Definition output : Type := list (container * element).

(** A render pass either runs to the end or stops at an uncaught
    exception; in both cases the elements emitted so far are on the
    page. *)
Definition M (A : Type) : Type := output → (Exception + A) * output.

Definition ret {A} (a : A) : M A := λ out, (inr a, out).

Definition bind {A B} (m : M A) (k : A → M B) : M B :=
  λ out, match m out with
         | (inr a, out') => k a out'
         | (inl e, out') => (inl e, out')
         end.

(** Putting elements on the page. *)
Definition emit (es : output) : M unit := λ out, (inr (), out ++ es).

Definition lift {A} (r : Exception + A) : M A := λ out, (r, out).

(** [try: body except Exception as e: handler e] *)
Definition try_except {A} (body : M A) (handler : Exception → M A) : M A :=
  λ out, match body out with
         | (inr a, out') => (inr a, out')
         | (inl e, out') => handler e out'
         end.

(** The figure an element shows, if it shows one. *)
Definition figure_of (e : element) : option figure :=
  match e with
  | StPlotlyChart c => Some (Plotly c)
  | StPyplotHeatmap cols => Some (Heatmap cols)
  | _ => None
  end.

(** One call of a block: a figure is drawn first, which may raise; the
    element then goes on the page. *)
Definition show (fdf : DataFrame) (te : container * element) : M unit :=
  match figure_of te.2 ≫= drawing_error fdf with
  | Some e => lift (inl e)
  | None => emit [te]
  end.

(** The calls of a block, in order, up to the first that raises. *)
Fixpoint show_all (fdf : DataFrame) (es : output) : M unit :=
  match es with
  | [] => ret ()
  | te :: es' => bind (show fdf te) (λ _, show_all fdf es')
  end.

Definition has (df : DataFrame) (c : string) : bool :=
  bool_decide (c ∈ columns df).

(** [if guard: ...] around a block that only emits. *)
Definition guarded (b : bool) (es : output) : output :=
  if b then es else [].

(** Lines 19-37. *)
Definition sidebar (df : DataFrame) (sel : Selections) : output :=
  [(Sidebar, StTitle "Filters");
   (Sidebar, StMultiselect "Department" (safe_unique df "Department")
               (selected_depts sel));
   (Sidebar, StMultiselect "Job Role" (safe_unique df "JobRole")
               (selected_roles sel));
   (Sidebar, StMultiselect "Gender" (safe_unique df "Gender")
               (selected_genders sel));
   (Sidebar, StMultiselect "Education" (safe_unique df "Education")
               (selected_education sel));
   (Sidebar, StMultiselect "Marital Status" (safe_unique df "MaritalStatus")
               (selected_marital sel));
   (Sidebar, StMultiselect "OverTime" (safe_unique df "OverTime")
               (selected_overtime sel))].

(** Lines 47-56. *)
Definition heading : output :=
  [(Page, StTitle "📊 Employee Attrition Insights Dashboard");
   (Page, StWrite "
This interactive dashboard helps HR leaders and stakeholders explore employee attrition data, uncover key patterns, and make informed decisions.
All charts are interactive and reflect the filters you select.
");
   (Page, StTabs ["Overview"; "Attrition Breakdown"; "Drivers & KPIs";
                  "Demographics"; "Data & Downloads"])].

(** Lines 60-61, up to the computation of the rate. *)
Definition overview_head : output :=
  [(Tab 0, StHeader "Attrition Rate Overview");
   (Tab 0, StMarkdown "**Shows the percentage of employees who have left the organization.**")].

(** Lines 63-79, once [attrition_rate] is computed. *)
Definition overview (fdf : DataFrame) (attrition_rate : option Q) : output :=
  [(Tab 0, StMetric "Overall Attrition Rate (%)" (format_rate attrition_rate));
   (Tab 0, StMarkdown "**Distribution of attrition status in the filtered data.**")]
  ++ guarded (has fdf "Attrition")
       [(Tab 0, StPlotlyChart (PxPie "Attrition" "Attrition Distribution"))]
  ++ [(Tab 0, StMarkdown "**See how attrition varies by department.**")]
  ++ guarded (has fdf "Department" && has fdf "Attrition")
       [(Tab 0, StPlotlyChart
                  (PxBar (crosstab (getitem fdf "Department")
                                   (getitem fdf "Attrition"))
                         "Attrition Rate by Department"))]
  ++ [(Tab 0, StMarkdown "**Attrition count by gender.**")]
  ++ guarded (has fdf "Gender" && has fdf "Attrition")
       [(Tab 0, StPlotlyChart
                  (PxHistogram "Gender" (Some "Attrition") "Attrition by Gender"))].

(** Lines 82-107. *)
Definition breakdown (fdf : DataFrame) : output :=
  [(Tab 1, StHeader "Attrition Breakdown by Role, Age, Tenure");
   (Tab 1, StMarkdown "**Which roles, ages, and tenures see the most attrition?**")]
  ++ guarded (has fdf "JobRole" && has fdf "Attrition")
       [(Tab 1, StPlotlyChart
                  (PxHistogram "JobRole" (Some "Attrition") "Attrition by Job Role"))]
  ++ [(Tab 1, StMarkdown "**Age distribution among employees, split by attrition status.**")]
  ++ guarded (has fdf "Age" && has fdf "Attrition")
       [(Tab 1, StPlotlyChart
                  (PxHistogram "Age" (Some "Attrition") "Age Distribution by Attrition"))]
  ++ [(Tab 1, StMarkdown "**Monthly Income differences between employees who stayed or left.**")]
  ++ guarded (has fdf "MonthlyIncome" && has fdf "Attrition")
       [(Tab 1, StPlotlyChart
                  (PxBox "Attrition" "MonthlyIncome" "Monthly Income by Attrition"))]
  ++ [(Tab 1, StMarkdown "**Tenure at company vs attrition (violin plot shows spread and outliers).**")]
  ++ guarded (has fdf "YearsAtCompany" && has fdf "Attrition")
       [(Tab 1, StPlotlyChart
                  (PxViolin "Attrition" "YearsAtCompany" "Years at Company vs Attrition"))]
  ++ [(Tab 1, StMarkdown "**Attrition by marital status.**")]
  ++ guarded (has fdf "MaritalStatus" && has fdf "Attrition")
       [(Tab 1, StPlotlyChart
                  (PxBar (crosstab (getitem fdf "MaritalStatus")
                                   (getitem fdf "Attrition"))
                         "Attrition by Marital Status"))].

(** Lines 110-138. *)
Definition drivers (fdf : DataFrame) : output :=
  [(Tab 2, StHeader "Drivers and Predictors of Attrition");
   (Tab 2, StMarkdown "**Does working overtime affect attrition?**")]
  ++ guarded (has fdf "OverTime" && has fdf "Attrition")
       [(Tab 2, StPlotlyChart
                  (PxBar (crosstab (getitem fdf "OverTime")
                                   (getitem fdf "Attrition"))
                         "Attrition by Overtime"))]
  ++ [(Tab 2, StMarkdown "**Job Satisfaction levels by attrition.**")]
  ++ guarded (has fdf "JobSatisfaction" && has fdf "Attrition")
       [(Tab 2, StPlotlyChart
                  (PxBox "Attrition" "JobSatisfaction" "Job Satisfaction by Attrition"))]
  ++ [(Tab 2, StMarkdown "**Work-Life Balance scores by attrition.**")]
  ++ guarded (has fdf "WorkLifeBalance" && has fdf "Attrition")
       [(Tab 2, StPlotlyChart
                  (PxBox "Attrition" "WorkLifeBalance" "Work-Life Balance by Attrition"))]
  ++ [(Tab 2, StMarkdown "**Years Since Last Promotion: Do those who leave feel stuck?**")]
  ++ guarded (has fdf "YearsSinceLastPromotion" && has fdf "Attrition")
       [(Tab 2, StPlotlyChart
                  (PxBox "Attrition" "YearsSinceLastPromotion"
                         "Years Since Last Promotion by Attrition"))]
  ++ [(Tab 2, StMarkdown "**See correlation between all numeric features.**")]
  ++ guarded (1 <? length (num_cols fdf))%nat
       [(Tab 2, StPyplotHeatmap (num_cols fdf))].

(** Lines 141-159. *)
Definition demographics (fdf : DataFrame) : output :=
  [(Tab 3, StHeader "Demographic Insights");
   (Tab 3, StMarkdown "**Breakdown of education levels among employees.**")]
  ++ guarded (has fdf "Education")
       [(Tab 3, StPlotlyChart
                  (PxHistogram "Education"
                     (if has fdf "Attrition" then Some "Attrition" else None)
                     "Education Levels"))]
  ++ [(Tab 3, StMarkdown "**Distribution of employees by gender and age.**")]
  ++ guarded (has fdf "Gender" && has fdf "Age")
       [(Tab 3, StPlotlyChart
                  (PxHistogram "Age" (Some "Gender") "Age Distribution by Gender"))]
  ++ [(Tab 3, StMarkdown "**Hierarchical breakdown: Department > Job Role > Attrition.**")]
  ++ guarded (forallb (has fdf) ["Department"; "JobRole"; "Attrition"])
       [(Tab 3, StPlotlyChart
                  (PxSunburst ["Department"; "JobRole"; "Attrition"]
                              "Organization Hierarchy Sunburst"))]
  ++ [(Tab 3, StMarkdown "**See a sample of the filtered data.**");
      (Tab 3, StDataframe {| schema := schema fdf; rows := take 10 (rows fdf) |})].

(** Lines 163-173, up to the call of [describe]. *)
Definition downloads (fdf : DataFrame) : output :=
  [(Tab 4, StHeader "Data and Downloads");
   (Tab 4, StMarkdown "**Download your current filtered data as CSV.**");
   (Tab 4, StDownloadButton "Download Filtered Data"
                            (to_csv float_repr fdf)
                            "filtered_EA.csv" "text/csv");
   (Tab 4, StMarkdown "**Summary statistics for numeric columns.**")].

(** Lines 176-186: the pivot builder. *)
Definition pivot_builder (fdf : DataFrame) (ss : gmap string widget_value)
  : M unit :=
  let cols := columns fdf in
  let row := selectbox ss cols "row" in
  let col := selectbox ss cols "col" in
  let agg := selectbox ss AGGREGATIONS "agg" in
  bind (emit [(Tab 4, StMarkdown "**Create your own pivot table for analysis.**");
              (Tab 4, StSelectbox "Row" cols row);
              (Tab 4, StSelectbox "Column" cols col);
              (Tab 4, StSelectbox "Aggregation" AGGREGATIONS agg)]) (λ _,
  if truthy_str row && truthy_str col then
    try_except
      (bind (lift (pd_pivot_table fdf row col agg))
            (λ pt, emit [(Tab 4, StPivot pt)]))
      (λ e, emit [(Tab 4, StWarning ("Pivot error: " ++ message e))])
  else ret ()).

(** Lines 19-174: the script on the loaded frame [df] and the session
    [ss], up to the pivot builder. *)
Definition before_pivot (df : DataFrame) (ss : gmap string widget_value)
  : M unit :=
  let sel := sidebar_selections df ss in
  let fdf := filtered_df df sel in
  bind (emit (sidebar df sel ++ heading ++ overview_head)) (λ _,
  bind (lift (attrition_rate fdf)) (λ rate,
  bind (show_all fdf (overview fdf rate ++ breakdown fdf ++ drivers fdf
                      ++ demographics fdf ++ downloads fdf)) (λ _,
  bind (lift (describe fdf)) (λ summary,
  emit [(Tab 4, StSummary summary)])))).

(** The whole script. *)
Definition script (df : DataFrame) (ss : gmap string widget_value) : M unit :=
  let sel := sidebar_selections df ss in
  let fdf := filtered_df df sel in
  bind (before_pivot df ss) (λ _,
  bind (pivot_builder fdf ss) (λ _,
  emit [(Page, StCaption "Dashboard built with Streamlit | For HR Insights | Version 1.0")])).

(** A render pass starts from the empty page. *)
Definition render (df : DataFrame) (ss : gmap string widget_value)
  : (Exception + unit) * output :=
  script df ss [].

End Script.

(** ** Vocabulary of the specification *)

(** The membership test column [cs.1] puts on a row: vacuous when the
    column is not in the frame or nothing is selected for it. *)
Definition column_test (df : DataFrame) (cs : string * list value) (r : row)
  : Prop :=
  cs.1 ∈ columns df → cs.2 ≠ [] → cell df cs.1 r ∈ cs.2.

Global Instance column_test_dec df cs r : Decision (column_test df cs r).
Proof. unfold column_test. apply _. Defined.

(** A row passes a list of filters when it passes each of them. *)
Definition row_passes (df : DataFrame) (l : list (string * list value))
    (r : row) : Prop :=
  Forall (λ cs, column_test df cs r) l.

Global Instance row_passes_dec df l r : Decision (row_passes df l r).
Proof. unfold row_passes. apply _. Defined.

(** A selection that constrains nothing: for each filterable column it is
    empty or holds exactly the values occurring in the column. *)
Definition unconstrained (df : DataFrame) (sel : Selections) : Prop :=
  ∀ cs, cs ∈ filter_pairs sel →
    cs.2 = [] ∨ ∀ v, v ∈ cs.2 ↔ v ∈ safe_unique df cs.1.

(** An Attrition value that, case-normalized, equals yes. *)
Definition is_yes (v : value) : Prop :=
  match v with
  | VStr s => lower s = "yes"
  | _ => False
  end.

Global Instance is_yes_dec v : Decision (is_yes v).
Proof. destruct v; apply _. Defined.

(** The number of rows of the frame whose Attrition is yes. *)
Definition yes_count (fdf : DataFrame) : nat :=
  length (filter (λ r, is_yes (cell fdf "Attrition" r)) (rows fdf)).

(** The rate the specification describes: 100 times the fraction of yes
    rows; not available without the column or without rows. *)
Definition spec_rate (fdf : DataFrame) : option Q :=
  if decide ("Attrition" ∈ columns fdf ∧ rows fdf ≠ [])
  then Some (100 * (Z.of_nat (yes_count fdf) # Pos.of_nat (length (rows fdf))))%Q
  else None.

(** Attrition, when the frame has it, is a text column (section 3 of the
    specification: a Yes/No label). *)
Definition text_attrition (fdf : DataFrame) : Prop :=
  default Object (dtype_of fdf "Attrition") = Object.

(** The [.str] accessor of line 62 applies to the frame: Attrition, when
    the frame has it, is an object column whose values, the missing ones
    aside, are not all booleans and not all numbers. *)
Definition str_applies (fdf : DataFrame) : Prop :=
  text_attrition fdf ∧ str_values (getitem fdf "Attrition") = true.

(** A cell of a column of labels: a string or the missing value. *)
Definition str_or_nan (v : value) : Prop :=
  match v with VStr _ | VNaN => True | _ => False end.

(** Attrition, when the frame has it, is an object column of labels. *)
Definition attrition_labels (fdf : DataFrame) : Prop :=
  text_attrition fdf ∧ Forall str_or_nan (getitem fdf "Attrition").

(** The rate as the specification states it, for every filtered table. *)
Definition rate_defined_everywhere : Prop :=
  ∀ fdf : DataFrame, attrition_rate fdf = inr (spec_rate fdf).

(** The derived computations as the specification states them: once its
    domain guard passes (line 62: the frame has the Attrition column),
    the rate is computed without failure. *)
Definition guarded_rate_succeeds : Prop :=
  ∀ fdf : DataFrame,
    "Attrition" ∈ columns fdf → ∃ rate, attrition_rate fdf = inr rate.

(** *** The pivot builder *)

(** The arguments [pd.pivot_table] is called with in a render pass, if
    it is called: the row and column of the select boxes when both are
    truthy, and the aggregation. *)
Definition pivot_call (fdf : DataFrame) (ss : gmap string widget_value)
  : option (option string * option string * option string) :=
  let row := selectbox ss (columns fdf) "row" in
  let col := selectbox ss (columns fdf) "col" in
  let agg := selectbox ss AGGREGATIONS "agg" in
  if truthy_str row && truthy_str col then Some (row, col, agg) else None.

(** The user has set the widget with this key. *)
Definition chosen (ss : gmap string widget_value) (key : string) : Prop :=
  is_Some (ss !! key).

Definition all_chosen (ss : gmap string widget_value) : Prop :=
  chosen ss "row" ∧ chosen ss "col" ∧ chosen ss "agg".

(** The reading of the pivot controls in the specification: untouched
    controls have no value, and a pivot is computed only when the user
    has set all three. *)
Definition pivot_waits_for_user : Prop :=
  ∀ (fdf : DataFrame) (ss : gmap string widget_value),
    (¬ chosen ss "row" → selectbox ss (columns fdf) "row" = None)
    ∧ (¬ chosen ss "col" → selectbox ss (columns fdf) "col" = None)
    ∧ (¬ chosen ss "agg" → selectbox ss AGGREGATIONS "agg" = None)
    ∧ (is_Some (pivot_call fdf ss) → all_chosen ss).

(** *** The views of the page and the columns they are drawn from *)

Inductive view :=
| AttritionPie | DepartmentBar | GenderHistogram
| JobRoleHistogram | AgeHistogram | IncomeBox | TenureViolin | MaritalBar
| OvertimeBar | SatisfactionBox | BalanceBox | PromotionBox
| EducationHistogram | AgeGenderHistogram | HierarchySunburst.

Definition view_title (v : view) : string :=
  match v with
  | AttritionPie => "Attrition Distribution"
  | DepartmentBar => "Attrition Rate by Department"
  | GenderHistogram => "Attrition by Gender"
  | JobRoleHistogram => "Attrition by Job Role"
  | AgeHistogram => "Age Distribution by Attrition"
  | IncomeBox => "Monthly Income by Attrition"
  | TenureViolin => "Years at Company vs Attrition"
  | MaritalBar => "Attrition by Marital Status"
  | OvertimeBar => "Attrition by Overtime"
  | SatisfactionBox => "Job Satisfaction by Attrition"
  | BalanceBox => "Work-Life Balance by Attrition"
  | PromotionBox => "Years Since Last Promotion by Attrition"
  | EducationHistogram => "Education Levels"
  | AgeGenderHistogram => "Age Distribution by Gender"
  | HierarchySunburst => "Organization Hierarchy Sunburst"
  end.

(** The columns the block of a chart tests for before drawing it. *)
Definition view_columns (v : view) : list string :=
  match v with
  | AttritionPie => ["Attrition"]
  | DepartmentBar => ["Department"; "Attrition"]
  | GenderHistogram => ["Gender"; "Attrition"]
  | JobRoleHistogram => ["JobRole"; "Attrition"]
  | AgeHistogram => ["Age"; "Attrition"]
  | IncomeBox => ["MonthlyIncome"; "Attrition"]
  | TenureViolin => ["YearsAtCompany"; "Attrition"]
  | MaritalBar => ["MaritalStatus"; "Attrition"]
  | OvertimeBar => ["OverTime"; "Attrition"]
  | SatisfactionBox => ["JobSatisfaction"; "Attrition"]
  | BalanceBox => ["WorkLifeBalance"; "Attrition"]
  | PromotionBox => ["YearsSinceLastPromotion"; "Attrition"]
  | EducationHistogram => ["Education"]
  | AgeGenderHistogram => ["Gender"; "Age"]
  | HierarchySunburst => ["Department"; "JobRole"; "Attrition"]
  end.

Definition RATE_LABEL : string := "Overall Attrition Rate (%)".

(** The derived views among the elements of a page. *)
Inductive item :=
| IChart (title : string)
| IHeatmap (cols : list string)
| IMetric (lbl : string) (v : metric_value).

Section Page.

Variable float_repr : Qc → string.
Variable drawing_error : DataFrame → figure → option Exception.
Context {Pivot : Type}.
Variable pd_pivot_table :
  DataFrame → option string → option string → option string
  → Exception + Pivot.

Local Abbreviation output := (@output Pivot).
Local Abbreviation element := (@element Pivot).

(** Every figure among the elements is drawn without an exception. *)
Definition all_drawn (fdf : DataFrame) (es : output) : Prop :=
  ∀ te fg, te ∈ es → figure_of te.2 = Some fg →
           drawing_error fdf fg = None.

(** The blocks of the five tabs, up to the call of [describe]. *)
Definition tabs (fdf : DataFrame) (rate : option Q) : output :=
  overview fdf rate ++ breakdown fdf ++ drivers fdf
  ++ demographics fdf ++ downloads float_repr fdf.

(** The pass reaches the pivot builder, with [page] on the page. *)
Definition reaches_pivot_builder (df : DataFrame)
    (ss : gmap string widget_value) (page : output) : Prop :=
  before_pivot float_repr drawing_error df ss [] = (inr (), page).

Definition chart_shown (title : string) (out : output) : Prop :=
  ∃ t c, (t, StPlotlyChart c) ∈ out ∧ chart_title c = title.

Definition heatmap_shown (out : output) : Prop :=
  ∃ t cols, (t, StPyplotHeatmap cols) ∈ out.

Definition metric_shown (lbl : string) (v : metric_value) (out : output)
  : Prop :=
  ∃ t, (t, StMetric lbl v) ∈ out.

Definition item_of (e : element) : option item :=
  match e with
  | StPlotlyChart c => Some (IChart (chart_title c))
  | StPyplotHeatmap cols => Some (IHeatmap cols)
  | StMetric lbl v => Some (IMetric lbl v)
  | _ => None
  end.

Definition items (out : output) : list item :=
  omap (λ te, item_of te.2) out.

(** Everything on the page when the pivot builder is reached. *)
Definition page_before_pivot (df : DataFrame) (sel : Selections)
    (rate : option Q) (summary : list (string * nat)) : output :=
  let fdf := filtered_df df sel in
  sidebar df sel ++ heading ++ overview_head
  ++ overview fdf rate ++ breakdown fdf ++ drivers fdf
  ++ demographics fdf ++ downloads float_repr fdf
  ++ [(Tab 4, StSummary summary)].

Definition pivot_controls (fdf : DataFrame) (ss : gmap string widget_value)
  : output :=
  [(Tab 4, StMarkdown "**Create your own pivot table for analysis.**");
   (Tab 4, StSelectbox "Row" (columns fdf) (selectbox ss (columns fdf) "row"));
   (Tab 4, StSelectbox "Column" (columns fdf)
             (selectbox ss (columns fdf) "col"));
   (Tab 4, StSelectbox "Aggregation" AGGREGATIONS
             (selectbox ss AGGREGATIONS "agg"))].

(** What the pivot builder puts under its controls. *)
Definition pivot_outcome (fdf : DataFrame) (ss : gmap string widget_value)
  : output :=
  match pivot_call fdf ss with
  | None => []
  | Some (row, col, agg) =>
      match pd_pivot_table fdf row col agg with
      | inr pt => [(Tab 4, StPivot pt)]
      | inl e => [(Tab 4, StWarning ("Pivot error: " ++ message e))]
      end
  end.

Definition footer : output :=
  [(Page, StCaption "Dashboard built with Streamlit | For HR Insights | Version 1.0")].

(** The omission policy read over every derived view: a chart one of
    whose columns is absent is not on the page, and neither is the rate
    metric when Attrition is absent. *)
Definition omits_every_view (df : DataFrame) (out : output) : Prop :=
  (∀ v c, c ∈ view_columns v → c ∉ columns df →
          ¬ chart_shown (view_title v) out)
  ∧ ("Attrition" ∉ columns df → ∀ m, ¬ metric_shown RATE_LABEL m out).

End Page.

(** The charts of each tab, in the order of the script. *)
Definition overview_views : list view :=
  [AttritionPie; DepartmentBar; GenderHistogram].

Definition breakdown_views : list view :=
  [JobRoleHistogram; AgeHistogram; IncomeBox; TenureViolin; MaritalBar].

Definition drivers_views : list view :=
  [OvertimeBar; SatisfactionBox; BalanceBox; PromotionBox].

Definition demographics_views : list view :=
  [EducationHistogram; AgeGenderHistogram; HierarchySunburst].

(** The chart items of the views whose columns are all in the frame. *)
Definition charts_of (fdf : DataFrame) (vs : list view) : list item :=
  vs ≫= λ v, if forallb (λ c, bool_decide (c ∈ columns fdf)) (view_columns v)
             then [IChart (view_title v)] else [].

(** The heatmap item of a frame with more than one numeric column. *)
Definition heatmap_item (fdf : DataFrame) : list item :=
  if (1 <? length (num_cols fdf))%nat then [IHeatmap (num_cols fdf)] else [].

(** A stand-in for [pd.pivot_table] used in the examples: it refuses the
    mean of a text column and otherwise answers with the names of the
    value columns. *)
Definition sample_pivot_table (fdf : DataFrame) (row col agg : option string)
  : Exception + list string :=
  let values := filter (λ c, Some c ≠ row ∧ Some c ≠ col) (columns fdf) in
  if decide (agg = Some "mean"
             ∧ Exists (λ c, dtype_of fdf c = Some Object) values)
  then inl (LibraryError "agg function failed [how->mean,dtype->object]")
  else inr values.

(** *** The export read back *)

Definition integer_cell (v : value) : Prop :=
  match v with VNum _ => True | _ => False end.

Definition float_or_nan (v : value) : Prop :=
  match v with VFloat _ | VNaN => True | _ => False end.

Definition boolean_or_nan (v : value) : Prop :=
  match v with VBool _ | VNaN => True | _ => False end.

(** A string cell of a frame that was read from a file is never one of
    the missing-value markers. *)
Definition text_or_nan (v : value) : Prop :=
  match v with VStr s => is_na s = false | VNaN => True | _ => False end.

Global Instance integer_cell_dec v : Decision (integer_cell v).
Proof. destruct v; apply _. Defined.

Global Instance float_or_nan_dec v : Decision (float_or_nan v).
Proof. destruct v; apply _. Defined.

Global Instance boolean_or_nan_dec v : Decision (boolean_or_nan v).
Proof. destruct v; apply _. Defined.

(** The cells of the column at position [j], one per row. *)
Definition column_cells (df : DataFrame) (j : nat) : list value :=
  (λ r, default VNaN (cells r !! j)) <$> rows df.

(** Every row has one cell per column. *)
Definition rectangular (df : DataFrame) : Prop :=
  Forall (λ r, length (cells r) = length (schema df)) (rows df).

(** The cells of a column fit its dtype: integers, or floats and
    missing values, under a numeric dtype; booleans under the boolean
    dtype; and under object either booleans or text, with missing
    values. *)
Definition column_typed (dt : dtype) (cs : list value) : Prop :=
  match dt with
  | Numeric => Forall integer_cell cs ∨ Forall float_or_nan cs
  | Boolean => Forall (λ v, ∃ b, v = VBool b) cs
  | Object => Forall boolean_or_nan cs ∨ Forall text_or_nan cs
  end.

(** A frame as [pd.read_csv] makes them: one cell per column in every
    row, and in every column cells that fit the dtype. *)
Definition well_formed (df : DataFrame) : Prop :=
  rectangular df
  ∧ ∀ j c, schema df !! j = Some c →
           column_typed (col_dtype c) (column_cells df j).

Section RoundTrip.

Variable float_repr : Qc → string.
Variable parse_number : string → option number.
Variable read_irregular : list (list string) → Exception + DataFrame.

(** The parser reads the numbers of the column back from the text
    written for them: an integer as that integer, a float as that
    float, the text of a float not being a missing-value marker. *)
Definition reads_back (cs : list value) : Prop :=
  (∀ z, VNum z ∈ cs → parse_number (number_text z) = Some (Int z))
  ∧ (∀ x, VFloat x ∈ cs →
          parse_number (float_repr x) = Some (Float x)
          ∧ is_na (float_repr x) = false).

(** The parser takes no boolean literal for a number. *)
Definition booleans_are_not_numbers : Prop :=
  ∀ f, is_Some (parse_bool f) → parse_number f = None.

(** A column whose cells are read back as they are: integers, or floats
    with missing values, that the parser reads back; booleans with
    missing values; or text with missing values of which one string is
    not read as a number and one is not read as a boolean. *)
Definition stable_column (cs : list value) : Prop :=
  ((Forall integer_cell cs ∨ Forall float_or_nan cs) ∧ reads_back cs)
  ∨ Forall boolean_or_nan cs
  ∨ (Forall text_or_nan cs
     ∧ (∃ s, VStr s ∈ cs ∧ parse_number s = None)
     ∧ (∃ s, VStr s ∈ cs ∧ parse_bool s = None)).

(** A text column that is not read back as text: it holds a string, and
    its strings are all read as numbers or are all boolean literals. *)
Definition unstable_text (cs : list value) : Prop :=
  Forall text_or_nan cs
  ∧ (∃ s, VStr s ∈ cs)
  ∧ ((∀ s, VStr s ∈ cs → is_Some (parse_number s))
     ∨ (∀ s, VStr s ∈ cs → is_Some (parse_bool s))).

(** The round trip as the specification states it, for the frames the
    script can hold: read from some file, then filtered. *)
Definition export_round_trips : Prop :=
  ∀ (file : list (list string)) (df : DataFrame) (sel : Selections),
    load_data parse_number read_irregular file = inr df →
    ∃ df', read_csv parse_number read_irregular
             (to_csv float_repr (filtered_df df sel)) = inr df'
           ∧ columns df' = columns (filtered_df df sel)
           ∧ cells <$> rows df' = cells <$> rows (filtered_df df sel).

End RoundTrip.

(** *** Further vocabulary *)

(** The columns of the frame a chart is told to draw ([names], [x],
    [y], [color], [path]); a bar chart is given a finished
    cross-tabulation and names none. *)
Definition chart_columns (c : chart) : list string :=
  match c with
  | PxPie names _ => [names]
  | PxBar _ _ => []
  | PxHistogram x color _ => x :: option_list color
  | PxBox x y _ | PxViolin x y _ => [x; y]
  | PxSunburst path _ => path
  end.

(** The spellings of yes, in every mix of upper and lower case. *)
Definition YES_SPELLINGS : list string :=
  ["yes"; "yeS"; "yEs"; "yES"; "Yes"; "YeS"; "YEs"; "YES"].

(** An element that, if it is a chart, names only columns of [fdf], and
    if it is the heatmap, is over two or more numeric columns of
    [fdf]. *)
Definition drawable {Pivot : Type} (fdf : DataFrame)
    (te : container * @element Pivot) : Prop :=
  match te.2 with
  | StPlotlyChart c => Forall (λ x, x ∈ columns fdf) (chart_columns c)
  | StPyplotHeatmap cols =>
      cols = num_cols fdf ∧ (2 ≤ length cols)%nat
  | _ => True
  end.

(** The cells a column of each kind holds once it is converted. *)
Definition kind_fits (k : kind) (v : value) : Prop :=
  match k with
  | KInt => integer_cell v
  | KFloat => float_or_nan v
  | KBoolean => ∃ b, v = VBool b
  | KBooleanNA => boolean_or_nan v
  | KText => text_or_nan v
  end.

(** ** Example frames *)

(** The three-row table of the specification's scenario. *)
Definition scenario : DataFrame :=
  {| schema := [Col "Department" Object; Col "Attrition" Object];
     rows := [Row 0 [VStr "A"; VStr "Yes"];
              Row 1 [VStr "A"; VStr "No"];
              Row 2 [VStr "B"; VStr "No"]] |}.

Definition no_selection : Selections :=
  {| selected_depts := []; selected_roles := []; selected_genders := [];
     selected_education := []; selected_marital := [];
     selected_overtime := [] |}.

(** Department narrowed to A, everything else unconstrained. *)
Definition only_A : Selections :=
  {| selected_depts := [VStr "A"]; selected_roles := [];
     selected_genders := []; selected_education := [];
     selected_marital := []; selected_overtime := [] |}.

(** A table without the Attrition column. *)
Definition departments_only : DataFrame :=
  {| schema := [Col "Department" Object];
     rows := [Row 0 [VStr "A"]; Row 1 [VStr "B"]] |}.

(** The scenario's table with a text column beside the two labels. *)
Definition scenario_gender : DataFrame :=
  {| schema := [Col "Department" Object; Col "Attrition" Object;
                Col "Gender" Object];
     rows := [Row 0 [VStr "A"; VStr "Yes"; VStr "F"];
              Row 1 [VStr "A"; VStr "No"; VStr "M"];
              Row 2 [VStr "B"; VStr "No"; VStr "F"]] |}.

(** The user has picked Department, Attrition and mean in the pivot
    builder. *)
Definition mean_request : gmap string widget_value :=
  {[ "row" := WStr "Department"; "col" := WStr "Attrition";
     "agg" := WStr "mean" ]}.

(** A table whose Attrition is coded 1/0, outside the data model of the
    specification. *)
Definition coded_attrition : DataFrame :=
  {| schema := [Col "Department" Object; Col "Attrition" Numeric];
     rows := [Row 0 [VStr "A"; VNum 1]; Row 1 [VStr "B"; VNum 0]] |}.

(** A file whose Code column mixes a number-like and a plain string. *)
Definition codes_file : list (list string) :=
  [["Department"; "Code"]; ["A"; "12"]; ["B"; "A7"]].

(** A number parser for the examples: decimal integers, and no
    floats. *)
Definition parse_integer (f : string) : option number :=
  Int <$> parse_decimal f.

(** Stand-ins for the other parameters in the examples: a float text,
    a parser that gives up on irregular files, and a drawing library
    that draws every figure. *)
Definition sample_float_repr (x : Qc) : string := "0.5".

Definition refuse_irregular (recs : list (list string))
  : Exception + DataFrame :=
  inl (LibraryError "irregular file").

Definition always_drawn (fdf : DataFrame) (fg : figure)
  : option Exception := None.

(** A file whose Attrition column holds a boolean and a missing value,
    and the table read from it. *)
Definition flags_file : list (list string) :=
  [["Department"; "Attrition"]; ["A"; "True"]; ["B"; ""]].

Definition flagged_attrition : DataFrame :=
  {| schema := [Col "Department" Object; Col "Attrition" Object];
     rows := [Row 0 [VStr "A"; VBool true]; Row 1 [VStr "B"; VNaN]] |}.

(** A file whose Attrition column is coded 1 and 0. *)
Definition coded_file : list (list string) :=
  [["Department"; "Attrition"]; ["A"; "1"]; ["B"; "0"]].

(** The scenario's table as a file. *)
Definition scenario_file : list (list string) :=
  [["Department"; "Attrition"]; ["A"; "Yes"]; ["A"; "No"]; ["B"; "No"]].

(** Department B and Gender M: a combination no row of
    [scenario_gender] has. *)
Definition B_and_M : Selections :=
  {| selected_depts := [VStr "B"]; selected_roles := [];
     selected_genders := [VStr "M"]; selected_education := [];
     selected_marital := []; selected_overtime := [] |}.

(** * Properties *)

(** ** Filtering *)

Lemma mask_rows_isin df c selected rs :
  mask_rows rs (isin (cell df c <$> rs) selected)
  = filter (λ r, cell df c r ∈ selected) rs.
Proof.
  induction rs as [|r rs IH]; [done|].
  cbn [fmap list_fmap isin mask_rows]. rewrite filter_cons.
  unfold isin in IH. rewrite IH.
  destruct (decide (cell df c r ∈ selected)) as [Hin|Hin].
  - by rewrite bool_decide_eq_true_2.
  - by rewrite bool_decide_eq_false_2.
Qed.

Lemma filter_step_schema d cs : schema (filter_step d cs) = schema d.
Proof. unfold filter_step. by case_match. Qed.

Lemma apply_filters_schema l d : schema (apply_filters l d) = schema d.
Proof.
  revert d. induction l as [|cs l IH]; intros d; [done|].
  cbn. unfold apply_filters in IH. by rewrite IH, filter_step_schema.
Qed.

Lemma cell_schema d d' c r : schema d = schema d' → cell d c r = cell d' c r.
Proof. unfold cell, columns. by intros ->. Qed.

Lemma column_test_schema d d' cs r :
  schema d = schema d' → column_test d cs r ↔ column_test d' cs r.
Proof.
  intros Hs. unfold column_test, columns.
  by rewrite (cell_schema d d' _ _ Hs), Hs.
Qed.

Lemma truthy_nonempty {A} (l : list A) : truthy l = true ↔ l ≠ [].
Proof. by destruct l. Qed.

Lemma filter_all {A} (P : A → Prop) `{∀ x, Decision (P x)} (l : list A) :
  (∀ x, x ∈ l → P x) → filter P l = l.
Proof.
  induction l as [|x l IH]; intros Hall; [done|].
  rewrite filter_cons_True by (apply Hall; left).
  f_equal. apply IH. intros y Hy. apply Hall. by right.
Qed.

Lemma filter_step_rows d cs :
  rows (filter_step d cs) = filter (column_test d cs) (rows d).
Proof.
  unfold filter_step.
  destruct (bool_decide (cs.1 ∈ columns d) && truthy cs.2) eqn:Hg.
  - apply andb_true_iff in Hg as [Hc Ht].
    apply bool_decide_eq_true in Hc. apply truthy_nonempty in Ht.
    cbn. unfold getitem. rewrite mask_rows_isin.
    apply list_filter_iff. intros r. unfold column_test. tauto.
  - symmetry. apply filter_all. intros r _ Hc Ht.
    apply andb_false_iff in Hg as [Hg|Hg].
    + by apply bool_decide_eq_false in Hg.
    + by destruct (cs.2).
Qed.

Lemma apply_filters_rows l d :
  rows (apply_filters l d) = filter (row_passes d l) (rows d).
Proof.
  revert d. induction l as [|cs l IH]; intros d.
  - cbn. symmetry. apply filter_all. intros r _. constructor.
  - change (apply_filters (cs :: l) d) with (apply_filters l (filter_step d cs)).
    rewrite IH, filter_step_rows, list_filter_filter.
    apply list_filter_iff. intros r. unfold row_passes.
    rewrite Forall_cons.
    assert (Hs : schema (filter_step d cs) = schema d)
      by apply filter_step_schema.
    split.
    + intros [Hl Hc]. split; [done|].
      eapply Forall_impl; [exact Hl|]. intros x. by apply column_test_schema.
    + intros [Hc Hl]. split; [|done].
      eapply Forall_impl; [exact Hl|]. intros x. by apply column_test_schema.
Qed.

Lemma apply_filters_app l1 l2 d :
  apply_filters (l1 ++ l2) d = apply_filters l2 (apply_filters l1 d).
Proof. unfold apply_filters. apply foldl_app. Qed.

Lemma DataFrame_eq d d' : schema d = schema d' → rows d = rows d' → d = d'.
Proof. destruct d, d'. cbn. by intros -> ->. Qed.

Lemma apply_filters_Permutation l l' d :
  l ≡ₚ l' → apply_filters l d = apply_filters l' d.
Proof.
  intros Hp. apply DataFrame_eq.
  - by rewrite !apply_filters_schema.
  - rewrite !apply_filters_rows. apply list_filter_iff. intros r.
    unfold row_passes. by rewrite Hp.
Qed.

Lemma elem_of_unique v s : v ∈ unique s ↔ v ∈ s.
Proof.
  induction s as [|w s IH]; [done|].
  cbn. rewrite !elem_of_cons, list_elem_of_filter, IH.
  destruct (decide (v = w)); tauto.
Qed.

Lemma NoDup_unique s : NoDup (unique s).
Proof.
  induction s as [|w s IH]; cbn; [constructor|].
  constructor.
  - rewrite list_elem_of_filter. by intros [Hne _].
  - by apply NoDup_filter.
Qed.

(** C1: the filtered table has the columns of the record table and
    exactly those of its rows, in their order, that pass the membership
    test of every filterable column; the tests are the six of
    Department, JobRole, Gender, Education, MaritalStatus and OverTime,
    each vacuous when its column is absent or its selection is empty. *)
Theorem filtered_table_is_conjunction (df : DataFrame) (sel : Selections) :
  schema (filtered_df df sel) = schema df
  ∧ rows (filtered_df df sel) = filter (row_passes df (filter_pairs sel)) (rows df)
  ∧ ∀ r, row_passes df (filter_pairs sel) r ↔
      column_test df ("Department", selected_depts sel) r
      ∧ column_test df ("JobRole", selected_roles sel) r
      ∧ column_test df ("Gender", selected_genders sel) r
      ∧ column_test df ("Education", selected_education sel) r
      ∧ column_test df ("MaritalStatus", selected_marital sel) r
      ∧ column_test df ("OverTime", selected_overtime sel) r.
Proof.
  split; [apply apply_filters_schema|].
  split; [apply apply_filters_rows|].
  intros r. unfold row_passes, filter_pairs, FILTER_COLUMNS, selection_list.
  cbn [zip zip_with]. rewrite !Forall_cons, Forall_nil. tauto.
Qed.

Lemma elem_of_safe_unique df c v :
  c ∈ columns df → v ∈ safe_unique df c ↔ v ∈ getitem df c.
Proof.
  intros Hc. unfold safe_unique. rewrite decide_True by done.
  apply elem_of_unique.
Qed.

Lemma unconstrained_passes df sel r :
  unconstrained df sel → r ∈ rows df → row_passes df (filter_pairs sel) r.
Proof.
  intros Hu Hr. unfold row_passes. apply Forall_forall. intros cs Hcs Hc Hne.
  destruct (Hu cs Hcs) as [Hnil|Hall]; [done|].
  apply Hall, elem_of_safe_unique; [done|].
  unfold getitem. apply list_elem_of_fmap. by exists r.
Qed.

(** C3: when every filterable column's selection is empty or holds
    exactly the values occurring in that column, the filtered table is
    the record table itself: same columns, same rows with the same
    cells and labels, in the same order. *)
Theorem unconstrained_filter_is_identity (df : DataFrame) (sel : Selections) :
  unconstrained df sel → filtered_df df sel = df.
Proof.
  intros Hu. apply DataFrame_eq.
  - apply apply_filters_schema.
  - unfold filtered_df. rewrite apply_filters_rows.
    apply filter_all. intros r Hr. by apply unconstrained_passes.
Qed.

Lemma multiselect_untouched lbl options default_ :
  multiselect ∅ lbl options default_ = default_.
Proof. unfold multiselect. by rewrite lookup_empty. Qed.

(** The default of every multiselect is the full list of options, so a
    fresh session constrains nothing. *)
Lemma defaults_unconstrained df : unconstrained df (sidebar_selections df ∅).
Proof.
  intros cs Hcs. right. revert Hcs.
  unfold filter_pairs, FILTER_COLUMNS, selection_list, sidebar_selections.
  cbn [zip zip_with selected_depts selected_roles selected_genders
       selected_education selected_marital selected_overtime].
  rewrite !multiselect_untouched, !elem_of_cons, elem_of_nil.
  intros [->|[->|[->|[->|[->|[->|[]]]]]]]; done.
Qed.

Lemma unconstrained_filter_is_identity_witness :
  unconstrained scenario (sidebar_selections scenario ∅)
  ∧ filtered_df scenario (sidebar_selections scenario ∅) = scenario.
Proof.
  split; [apply defaults_unconstrained|].
  apply (unconstrained_filter_is_identity scenario).
  apply defaults_unconstrained.
Defined.

Lemma filter_step_comm d a b :
  filter_step (filter_step d a) b = filter_step (filter_step d b) a.
Proof.
  change (apply_filters [a; b] d = apply_filters [b; a] d).
  apply apply_filters_Permutation. apply Permutation_swap.
Qed.

(** C4: applying the filter of one column and then that of another gives
    the same table as applying them in the other order, for single
    filters and for whole groups of filters; and a run of successive
    applications gives the same table however it is grouped. *)
Theorem filters_commute_and_associate (df : DataFrame)
    (a b : string * list value) (l1 l2 l3 : list (string * list value)) :
  filter_step (filter_step df a) b = filter_step (filter_step df b) a
  ∧ apply_filters l2 (apply_filters l1 df) = apply_filters l1 (apply_filters l2 df)
  ∧ apply_filters l3 (apply_filters (l1 ++ l2) df)
    = apply_filters (l2 ++ l3) (apply_filters l1 df)
  ∧ apply_filters ((l1 ++ l2) ++ l3) df = apply_filters (l1 ++ (l2 ++ l3)) df.
Proof.
  split; [apply filter_step_comm|].
  split.
  { rewrite <- !apply_filters_app. apply apply_filters_Permutation.
    apply Permutation_app_comm. }
  split.
  { by rewrite <- !apply_filters_app, app_assoc. }
  by rewrite app_assoc.
Qed.

(** ** Filtering on the object store *)

Lemma alloc_spec h d :
  h !! (alloc h d).1 = None
  ∧ (alloc h d).2 !! (alloc h d).1 = Some d
  ∧ ∀ l, is_Some (h !! l) → (alloc h d).2 !! l = h !! l.
Proof.
  unfold alloc. cbn.
  assert (Hf : h !! fresh (dom h) = None).
  { apply not_elem_of_dom. apply is_fresh. }
  split; [done|]. split; [apply lookup_insert_eq|].
  intros l [x Hl]. apply lookup_insert_ne. intros <-. congruence.
Qed.

Lemma filter_step_store_spec lf h d cs :
  h !! lf = Some d →
  ∃ lf' h', filter_step_store (lf, h) cs = Some (lf', h')
    ∧ h' !! lf' = Some (filter_step d cs)
    ∧ (∀ l, is_Some (h !! l) → h' !! l = h !! l)
    ∧ (lf' = lf ∨ h !! lf' = None).
Proof.
  intros Hlf. unfold filter_step_store, filter_step. rewrite Hlf. cbn.
  destruct (bool_decide (cs.1 ∈ columns d) && truthy cs.2).
  - destruct (alloc_spec h (getitem_mask d (isin (getitem d cs.1) cs.2)))
      as (Hnew & Hget & Hold).
    eexists _, _. split; [reflexivity|]. cbn. split; [done|].
    split; [done|]. by right.
  - exists lf, h. split; [done|]. split; [done|]. split; [done|]. by left.
Qed.

Lemma filter_loop_store_spec l : ∀ lf h d,
  h !! lf = Some d →
  ∃ lf' h', filter_loop_store l (lf, h) = Some (lf', h')
    ∧ h' !! lf' = Some (apply_filters l d)
    ∧ (∀ l0, is_Some (h !! l0) → h' !! l0 = h !! l0)
    ∧ (lf' = lf ∨ h !! lf' = None).
Proof.
  induction l as [|cs l IH]; intros lf h d Hlf.
  - exists lf, h. cbn. split; [done|]. split; [done|]. split; [done|]. by left.
  - destruct (filter_step_store_spec lf h d cs Hlf)
      as (lf1 & h1 & Hstep & Hget1 & Hold1 & Hloc1).
    destruct (IH lf1 h1 _ Hget1) as (lf2 & h2 & Hloop & Hget2 & Hold2 & Hloc2).
    exists lf2, h2. cbn [filter_loop_store]. rewrite Hstep. cbn.
    split; [done|]. split; [done|]. split.
    + intros l0 Hl0. rewrite Hold2; [by apply Hold1|]. by rewrite Hold1.
    + destruct Hloc2 as [->|Hnone]; [done|]. right.
      destruct (h !! lf2) eqn:Hq; [|done].
      rewrite Hold1 in Hnone by (by rewrite Hq). congruence.
Qed.

Lemma filtered_rows_sublist df sel :
  rows (filtered_df df sel) `sublist_of` rows df.
Proof. unfold filtered_df. rewrite apply_filters_rows. apply sublist_filter. Qed.

(** C10: run on a store that holds the record table, lines 39-45 end
    with [filtered_df] bound to an object other than the record table,
    the record table (and every other object of the store) reads as
    before, and the rows of the filtered table are a subsequence of the
    record table's rows: none reordered, none duplicated. *)
Theorem filtering_keeps_order_and_source (h : gmap loc DataFrame) (ldf : loc)
    (df : DataFrame) (sel : Selections) :
  h !! ldf = Some df →
  ∃ lf h', run_filters h ldf sel = Some (lf, h')
    ∧ h' !! lf = Some (filtered_df df sel)
    ∧ lf ≠ ldf
    ∧ h' !! ldf = Some df
    ∧ (∀ l d, h !! l = Some d → h' !! l = Some d)
    ∧ rows (filtered_df df sel) `sublist_of` rows df.
Proof.
  intros Hdf. unfold run_filters, copy. rewrite Hdf.
  destruct (alloc_spec h df) as (Hnew & Hget & Hold).
  destruct (alloc h df) as [lc hc] eqn:Ha. cbn [fst snd] in *.
  destruct (filter_loop_store_spec (filter_pairs sel) lc hc df Hget)
    as (lf & h' & Hloop & Hgetf & Hold' & Hloc).
  assert (Hkeep : ∀ l d, h !! l = Some d → h' !! l = Some d).
  { intros l d Hl. rewrite Hold'; rewrite Hold; by rewrite ?Hl. }
  exists lf, h'. split.
  { cbn [mbind option_bind]. by rewrite Ha. }
  split; [done|]. split.
  { intros ->. destruct Hloc as [->|Hnone]; [congruence|].
    rewrite Hold in Hnone by (by rewrite Hdf). congruence. }
  split; [by apply Hkeep|]. split; [done|]. apply filtered_rows_sublist.
Qed.

Lemma filtering_keeps_order_and_source_witness :
  ({[ 7 := scenario ]} : gmap loc DataFrame) !! 7 = Some scenario
  ∧ ∃ lf h', run_filters {[ 7 := scenario ]} 7 only_A = Some (lf, h')
      ∧ h' !! lf = Some (filtered_df scenario only_A)
      ∧ lf ≠ 7
      ∧ h' !! 7 = Some scenario
      ∧ (∀ l d, ({[ 7 := scenario ]} : gmap loc DataFrame) !! l = Some d
                → h' !! l = Some d)
      ∧ rows (filtered_df scenario only_A) `sublist_of` rows scenario.
Proof.
  split; [reflexivity|].
  apply (filtering_keeps_order_and_source {[ 7 := scenario ]} 7 scenario only_A).
  reflexivity.
Defined.

Example scenario_unfiltered : filtered_df scenario no_selection = scenario.
Proof. reflexivity. Qed.

Example scenario_filtered_to_A :
  filtered_df scenario only_A
  = {| schema := schema scenario;
       rows := [Row 0 [VStr "A"; VStr "Yes"]; Row 1 [VStr "A"; VStr "No"]] |}.
Proof. reflexivity. Qed.

(** ** Attrition rate *)

Lemma filter_fmap_length {A B} (f : A → B) (P : B → Prop)
    `{∀ x, Decision (P x)} (l : list A) :
  length (filter P (f <$> l)) = length (filter (λ a, P (f a)) l).
Proof.
  induction l as [|a l IH]; [done|].
  rewrite fmap_cons, !filter_cons.
  destruct (decide (P (f a))); cbn [length]; by rewrite IH.
Qed.

Lemma count_true_eq_yes (s : list value) :
  count_true (eq_value (str_lower s) (VStr "yes")) = length (filter is_yes s).
Proof.
  unfold count_true, eq_value, str_lower.
  rewrite <- list_fmap_compose, filter_fmap_length.
  f_equal. apply list_filter_iff. intros v. cbn.
  rewrite bool_decide_spec.
  destruct v; cbn; split; try done; congruence.
Qed.

Lemma filter_none {A} (P : A → Prop) `{∀ x, Decision (P x)} (l : list A) :
  (∀ x, x ∈ l → ¬ P x) → filter P l = [].
Proof.
  induction l as [|x l IH]; intros Hall; [done|].
  rewrite filter_cons_False by (apply Hall; left).
  apply IH. intros y Hy. apply Hall. by right.
Qed.

Lemma index_of_absent (c : string) (names : list string) :
  c ∉ names → index_of c names = None.
Proof.
  induction names as [|n names IH]; [done|].
  rewrite not_elem_of_cons. intros [Hne Hnin]. cbn.
  rewrite decide_False by done. by rewrite IH.
Qed.

Lemma getitem_absent (fdf : DataFrame) (c : string) :
  c ∉ columns fdf → filter notna (getitem fdf c) = [].
Proof.
  intros Hc. apply filter_none. intros v Hv Hnotna. apply Hnotna.
  unfold getitem in Hv. apply list_elem_of_fmap in Hv as (r & -> & _).
  unfold cell. by rewrite index_of_absent.
Qed.

Lemma str_values_no_value (s : list value) :
  filter notna s = [] → str_values s = true.
Proof. unfold str_values. by intros ->. Qed.

Lemma str_values_labels (s : list value) :
  Forall str_or_nan s → str_values s = true.
Proof.
  intros Hall. unfold str_values.
  destruct (filter notna s) as [|v present] eqn:Hp; [done|].
  assert (Hv : v ∈ filter notna s) by (rewrite Hp; left).
  apply list_elem_of_filter in Hv as [Hnotna Hin].
  rewrite Forall_forall in Hall. specialize (Hall v Hin).
  by destruct v.
Qed.

Lemma absent_attrition_applies (fdf : DataFrame) :
  "Attrition" ∉ columns fdf → str_applies fdf.
Proof.
  intros Hc. split.
  - unfold text_attrition, dtype_of. by rewrite index_of_absent.
  - by apply str_values_no_value, getitem_absent.
Qed.

Lemma labels_apply (fdf : DataFrame) : attrition_labels fdf → str_applies fdf.
Proof. intros [Ht Hall]. split; [done|]. by apply str_values_labels. Qed.

Lemma no_rows_apply (fdf : DataFrame) :
  rows fdf = [] → text_attrition fdf → str_applies fdf.
Proof. intros Hr Ht. split; [done|]. unfold getitem. by rewrite Hr. Qed.

Lemma attrition_rate_applies (fdf : DataFrame) :
  str_applies fdf → attrition_rate fdf = inr (spec_rate fdf).
Proof.
  unfold str_applies, text_attrition, attrition_rate, spec_rate.
  intros [-> Hv].
  destruct (decide ("Attrition" ∈ columns fdf)) as [Hc|Hc].
  - cbn [str_accessor]. rewrite Hv. f_equal. unfold getitem.
    destruct (rows fdf) as [|r rs] eqn:Hr.
    + by rewrite decide_False by tauto.
    + rewrite decide_True by done.
      unfold times100, mean. rewrite <- Hr.
      assert (Hne : eq_value (str_lower (cell fdf "Attrition" <$> rows fdf))
                      (VStr "yes") ≠ []).
      { rewrite Hr. done. }
      destruct (eq_value _ _) as [|b bs] eqn:Hm; [done|].
      rewrite <- Hm. cbn [fmap option_fmap option_map].
      rewrite count_true_eq_yes, filter_fmap_length.
      unfold eq_value, str_lower. by rewrite !length_fmap.
  - by rewrite decide_False by tauto.
Qed.

Lemma attrition_rate_refused (fdf : DataFrame) :
  ¬ str_applies fdf →
  "Attrition" ∈ columns fdf
  ∧ ∃ msg, attrition_rate fdf = inl (AttributeError msg).
Proof.
  intros Hn.
  destruct (decide ("Attrition" ∈ columns fdf)) as [Hc|Hc];
    [|by destruct Hn; apply absent_attrition_applies].
  split; [done|]. unfold attrition_rate. rewrite decide_True by done.
  unfold str_applies, text_attrition in Hn.
  destruct (default Object (dtype_of fdf "Attrition")); cbn; try by eexists.
  destruct (str_values (getitem fdf "Attrition")); [|by eexists].
  by destruct Hn.
Qed.

Lemma Qmake_self (n : nat) : (0 < n)%nat → Z.of_nat n # Pos.of_nat n == 1.
Proof.
  intros Hn. unfold Qeq. cbn.
  rewrite Z.mul_1_r, Z.mul_1_l.
  destruct n as [|n]; [lia|]. by rewrite <- Pos.of_nat_succ, Zpos_P_of_succ_nat, Nat2Z.inj_succ.
Qed.


(** The accessor of line 62 is not defined on a numeric Attrition
    column: the presence test passes and the expression raises. *)
Example coded_attrition_raises :
  attrition_rate coded_attrition
  = inl (AttributeError "Can only use .str accessor with string values!").
Proof. reflexivity. Qed.

(** On the table coded 1 and 0 line 62 yields no rate and no N/A: it
    raises. *)
Lemma rate_raises_on_codes : ¬ rate_defined_everywhere.
Proof. intros Hclaim. specialize (Hclaim coded_attrition). discriminate. Qed.


(** ** Cross-tabulation *)

Lemma Qsum_scaled (T : Q) (l : list nat) :
  Qsum ((λ n, inject_Z (Z.of_nat n) / T)%Q <$> l)
  == inject_Z (Z.of_nat (sum_list l)) / T.
Proof.
  induction l as [|n l IH].
  - cbn. unfold Qdiv. ring.
  - rewrite fmap_cons. cbn [Qsum foldr sum_list_with sum_list].
    change (foldr Qplus 0%Q ?x) with (Qsum x). rewrite IH.
    unfold id. rewrite Nat2Z.inj_add, inject_Z_plus. unfold Qdiv. ring.
Qed.

Lemma Qsum_normalize_row (counts : list nat) :
  (0 < sum_list counts)%nat → Qsum (normalize_row counts) == 1.
Proof.
  intros Hpos. unfold normalize_row. rewrite Qsum_scaled.
  unfold Qdiv. apply Qmult_inv_r.
  change 0%Q with (inject_Z 0). rewrite inject_Z_injective. lia.
Qed.

Lemma normalize_row_nonneg (counts : list nat) :
  Forall (λ q, 0 <= q)%Q (normalize_row counts).
Proof.
  unfold normalize_row. apply Forall_fmap, Forall_forall. intros n _. cbn.
  unfold Qdiv. apply Qmult_le_0_compat.
  - change 0%Q with (inject_Z 0). rewrite <- Zle_Qle. lia.
  - apply Qinv_le_0_compat.
    change 0%Q with (inject_Z 0). rewrite <- Zle_Qle. lia.
Qed.

Lemma elem_of_sort_values v l : v ∈ sort_values l ↔ v ∈ l.
Proof. unfold sort_values. by rewrite merge_sort_Permutation. Qed.

Lemma sum_list_elem {A} (f : A → nat) (l : list A) (x : A) :
  x ∈ l → (f x ≤ sum_list (f <$> l))%nat.
Proof.
  induction 1 as [x l|x y l _ IH]; rewrite fmap_cons; cbn; lia.
Qed.

Lemma count_pair_pos ps g c : (g, c) ∈ ps → (0 < count_pair ps g c)%nat.
Proof.
  intros Hin. unfold count_pair.
  assert (Hf : (g, c) ∈ filter (λ p, p = (g, c)) ps)
    by (by apply list_elem_of_filter).
  destruct (filter _ ps); [by apply elem_of_nil in Hf|cbn; lia].
Qed.

Lemma elem_of_zip_fmap {A B C} (f : A → B) (g : A → C) (l : list A) (x : A) :
  x ∈ l → (f x, g x) ∈ zip (f <$> l) (g <$> l).
Proof.
  induction 1 as [x l|x y l _ IH]; rewrite !fmap_cons; cbn.
  - left.
  - by right.
Qed.

Lemma crosstab_row_total_pos (a b : list value) (g : value) :
  g ∈ ct_index (crosstab a b) →
  (0 < sum_list (count_pair (crosstab_pairs a b) g <$> ct_columns (crosstab a b)))%nat.
Proof.
  cbn. rewrite elem_of_sort_values, elem_of_unique, list_elem_of_fmap.
  intros ([g' c] & -> & Hin). cbn.
  pose proof (count_pair_pos _ _ _ Hin) as Hpos.
  assert (Hc : c ∈ sort_values (unique (crosstab_pairs a b).*2)).
  { rewrite elem_of_sort_values, elem_of_unique, list_elem_of_fmap.
    by exists (g', c). }
  pose proof (sum_list_elem (count_pair (crosstab_pairs a b) g') _ _ Hc).
  lia.
Qed.

(** C5: in the row-normalized cross-tabulation of two columns of a
    frame, every group that has a record with both labels present is a
    row of the table, and every row of the table is a distribution over
    the column labels: non-negative entries, one per column label, that
    sum to 1. *)
Theorem crosstab_rows_sum_to_one (fdf : DataFrame) (g1 g2 : string) :
  let ct := crosstab (getitem fdf g1) (getitem fdf g2) in
  length (ct_values ct) = length (ct_index ct)
  ∧ (∀ r, r ∈ rows fdf → notna (cell fdf g1 r) → notna (cell fdf g2 r) →
       cell fdf g1 r ∈ ct_index ct)
  ∧ ∀ i row, ct_values ct !! i = Some row →
      Qsum row == 1
      ∧ length row = length (ct_columns ct)
      ∧ Forall (λ q, 0 <= q)%Q row.
Proof.
  intros ct. split; [|split].
  - subst ct. cbn. by rewrite length_fmap.
  - intros r Hr Hn1 Hn2. subst ct. cbn.
    rewrite elem_of_sort_values, elem_of_unique, list_elem_of_fmap.
    exists (cell fdf g1 r, cell fdf g2 r). split; [done|].
    unfold crosstab_pairs. apply list_elem_of_filter. split; [done|].
    unfold getitem. by apply elem_of_zip_fmap.
  - intros i row Hi.
    assert (Hg : ∃ g, ct_index ct !! i = Some g
                      ∧ row = normalize_row
                                (count_pair (crosstab_pairs (getitem fdf g1)
                                                            (getitem fdf g2)) g
                                 <$> ct_columns ct)).
    { subst ct. cbn [crosstab ct_values ct_index ct_columns] in Hi |- *.
      rewrite list_lookup_fmap in Hi.
      destruct (sort_values _ !! i) as [g|]; [|done].
      exists g. split; [done|]. cbn [fmap option_fmap option_map] in Hi.
      by injection Hi as <-. }
    destruct Hg as (g & Hgi & ->). split; [|split].
    + apply Qsum_normalize_row. apply crosstab_row_total_pos.
      by eapply list_elem_of_lookup_2.
    + unfold normalize_row. by rewrite !length_fmap.
    + apply normalize_row_nonneg.
Qed.

Lemma crosstab_rows_sum_to_one_witness :
  ct_values (crosstab (getitem scenario "Department")
                      (getitem scenario "Attrition")) !! 0%nat
  = Some [(1 / 2)%Q; (1 / 2)%Q]
  ∧ Qsum [(1 / 2)%Q; (1 / 2)%Q] == 1.
Proof.
  split; [reflexivity|].
  exact (proj1 (proj2 (proj2 (crosstab_rows_sum_to_one scenario "Department"
                                "Attrition")) 0%nat _ eq_refl)).
Defined.

Example scenario_crosstab_A :
  crosstab (getitem (filtered_df scenario only_A) "Department")
           (getitem (filtered_df scenario only_A) "Attrition")
  = {| ct_index := [VStr "A"];
       ct_columns := [VStr "No"; VStr "Yes"];
       ct_values := [[(1 / 2)%Q; (1 / 2)%Q]] |}.
Proof. reflexivity. Qed.

(** ** The pivot builder *)

Lemma selectbox_untouched options key : selectbox ∅ options key = head options.
Proof. unfold selectbox. by rewrite lookup_empty. Qed.

Lemma truthy_str_spec (s : option string) :
  truthy_str s = true ↔ ∃ x, s = Some x ∧ x ≠ "".
Proof.
  destruct s as [[|a x]|]; cbn; split; try done.
  - intros (x & [= <-] & Hx). done.
  - intros _. by eexists.
  - intros (x & [=] & _).
Qed.


Example first_render_requests_a_pivot :
  pivot_call scenario ∅
  = Some (Some "Department", Some "Department", Some "count")
  ∧ ¬ all_chosen ∅.
Proof.
  split; [reflexivity|].
  intros ([x Hx] & _). by rewrite lookup_empty in Hx.
Qed.

Section PageProperties.

Context {Pivot : Type}.
Variable pd_pivot_table :
  DataFrame → option string → option string → option string
  → Exception + Pivot.

Local Abbreviation output := (@output Pivot).

Lemma pivot_builder_run (fdf : DataFrame) (ss : gmap string widget_value)
    (out : output) :
  pivot_builder pd_pivot_table fdf ss out
  = (inr (), out ++ pivot_controls fdf ss ++ pivot_outcome pd_pivot_table fdf ss).
Proof.
  unfold pivot_builder, pivot_outcome, pivot_call, bind, emit, try_except,
    lift, ret, pivot_controls.
  destruct (truthy_str (selectbox ss (columns fdf) "row")
            && truthy_str (selectbox ss (columns fdf) "col")).
  - destruct (pd_pivot_table fdf _ _ _) as [e|pt]; by rewrite <- app_assoc.
  - by rewrite app_nil_r.
Qed.

End PageProperties.

(** ** The render pass *)

Lemma describe_columns (fdf : DataFrame) :
  columns fdf ≠ [] → ∃ summary, describe fdf = inr summary.
Proof.
  unfold describe. destruct (columns fdf) as [|c cs]; [done|].
  intros _. by eexists.
Qed.

Lemma describe_succeeds (fdf : DataFrame) (summary : list (string * nat)) :
  describe fdf = inr summary → columns fdf ≠ [].
Proof. unfold describe. by destruct (columns fdf). Qed.

Lemma pivot_call_columns fdf ss :
  is_Some (pivot_call fdf ss) → columns fdf ≠ [].
Proof.
  unfold pivot_call, selectbox. intros Hsome Hnil. rewrite Hnil in Hsome.
  destruct (ss !! "row") as [[l|s]|]; cbn in Hsome.
  - by destruct Hsome.
  - rewrite decide_False in Hsome by apply not_elem_of_nil.
    cbn in Hsome. by destruct Hsome.
  - by destruct Hsome.
Qed.

Lemma filtered_df_columns df sel : columns (filtered_df df sel) = columns df.
Proof. unfold columns, filtered_df. by rewrite apply_filters_schema. Qed.

Section RenderProperties.

Variable float_repr : Qc → string.
Variable drawing_error : DataFrame → figure → option Exception.
Context {Pivot : Type}.
Variable pd_pivot_table :
  DataFrame → option string → option string → option string
  → Exception + Pivot.

Local Abbreviation output := (@output Pivot).
Local Abbreviation shows := (@show_all drawing_error Pivot).
Local Abbreviation drawn := (@all_drawn drawing_error Pivot).
Local Abbreviation upto_pivot :=
  (@before_pivot float_repr drawing_error Pivot).
Local Abbreviation run :=
  (@render float_repr drawing_error Pivot pd_pivot_table).
Local Abbreviation full_page := (@page_before_pivot float_repr Pivot).

(** A block all of whose figures are drawn puts all its elements on the
    page. *)
Lemma show_all_drawn (fdf : DataFrame) (es out : output) :
  drawn fdf es → shows fdf es out = (inr (), out ++ es).
Proof.
  revert out. induction es as [|te es IH]; intros out Hall.
  - cbn. unfold ret. by rewrite app_nil_r.
  - cbn [show_all]. unfold bind, show.
    assert (Hte : figure_of te.2 ≫= drawing_error fdf = None).
    { destruct (figure_of te.2) as [fg|] eqn:Hfg; [|done]. cbn.
      apply (Hall te fg); [left|done]. }
    rewrite Hte. unfold emit. rewrite IH.
    + by rewrite <- app_assoc.
    + intros te' fg Hin. apply Hall. by right.
Qed.

(** A block that runs to its end has drawn all its figures. *)
Lemma show_all_ended (fdf : DataFrame) (es out out' : output) :
  shows fdf es out = (inr (), out') →
  drawn fdf es ∧ out' = out ++ es.
Proof.
  revert out. induction es as [|te es IH]; intros out.
  - cbn. unfold ret. intros [= <-]. split; [|by rewrite app_nil_r].
    intros te fg Hin. by apply elem_of_nil in Hin.
  - cbn [show_all]. unfold bind, show.
    destruct (figure_of te.2 ≫= drawing_error fdf) as [e|] eqn:Hte;
      [done|].
    unfold emit. intros Hrun. apply IH in Hrun as [Hall ->]. split.
    + intros te' fg [->|Hin]%elem_of_cons Hfg; [|by eapply Hall].
      rewrite Hfg in Hte. cbn in Hte. by destruct (drawing_error fdf fg).
    + by rewrite <- app_assoc.
Qed.

(** Whatever happens, what a block puts on the page is an initial part
    of its elements, and a block only stops at a figure that is not
    drawn. *)
Lemma show_all_shown (fdf : DataFrame) (es out : output) :
  ∃ shown rest,
    es = shown ++ rest
    ∧ (shows fdf es out).2 = out ++ shown
    ∧ ((shows fdf es out).1 = inr () → rest = [])
    ∧ ∀ e, (shows fdf es out).1 = inl e →
           ∃ te fg, te ∈ es ∧ figure_of te.2 = Some fg
                    ∧ drawing_error fdf fg = Some e.
Proof.
  revert out. induction es as [|te es IH]; intros out.
  - exists [], []. cbn. unfold ret. cbn. rewrite app_nil_r.
    repeat split; done.
  - cbn [show_all]. unfold bind, show.
    destruct (figure_of te.2 ≫= drawing_error fdf) as [e|] eqn:Hte.
    + exists [], (te :: es). cbn. rewrite app_nil_r.
      split; [done|]. split; [done|]. split; [done|].
      intros e' [= <-].
      destruct (figure_of te.2) as [fg|] eqn:Hfg; [|done].
      exists te, fg. split; [left|done].
    + unfold emit. destruct (IH (out ++ [te]))
        as (shown & rest & -> & Hout & Hend & Hstop).
      exists (te :: shown), rest. split; [done|].
      split; [by rewrite Hout, <- app_assoc|]. split; [done|].
      intros e He. destruct (Hstop e He) as (te' & fg & Hin & Hfg & Hd).
      exists te', fg. split; [by right|done].
Qed.

Lemma before_pivot_run (df : DataFrame) (ss : gmap string widget_value)
    (rate : option Q) (summary : list (string * nat)) :
  let sel := sidebar_selections df ss in
  let fdf := filtered_df df sel in
  attrition_rate fdf = inr rate →
  drawn fdf (tabs float_repr fdf rate) →
  describe fdf = inr summary →
  upto_pivot df ss [] = (inr (), full_page df sel rate summary).
Proof.
  intros sel fdf Hrate Hdrawn Hsum.
  unfold before_pivot, bind, emit, lift.
  fold sel. fold fdf. rewrite Hrate.
  unfold tabs in Hdrawn. rewrite (show_all_drawn fdf _ _ Hdrawn), Hsum.
  unfold page_before_pivot. fold fdf. f_equal. cbn [app].
  by rewrite <- !app_assoc.
Qed.

Lemma before_pivot_reached (df : DataFrame) (ss : gmap string widget_value)
    (page : output) :
  let sel := sidebar_selections df ss in
  let fdf := filtered_df df sel in
  upto_pivot df ss [] = (inr (), page) →
  ∃ rate summary,
    attrition_rate fdf = inr rate
    ∧ drawn fdf (tabs float_repr fdf rate)
    ∧ describe fdf = inr summary
    ∧ page = full_page df sel rate summary.
Proof.
  intros sel fdf. unfold before_pivot, bind, emit, lift.
  fold sel. fold fdf.
  destruct (attrition_rate fdf) as [e|rate] eqn:Hrate; [done|].
  destruct (shows fdf _ _) as [[e|[]] out'] eqn:Hshow;
    [intros Heq; discriminate Heq|].
  destruct (show_all_ended _ _ _ _ Hshow) as [Hall Hout].
  destruct (describe fdf) as [e|summary] eqn:Hsum;
    [intros Heq; discriminate Heq|].
  intros Heq. apply (f_equal snd) in Heq. cbn [snd] in Heq.
  exists rate, summary. split; [reflexivity|]. split; [exact Hall|].
  split; [reflexivity|]. rewrite <- Heq, Hout.
  unfold page_before_pivot. fold fdf. cbn [app].
  by rewrite <- !app_assoc.
Qed.

(** From the pivot builder on, the pass runs to its end. *)
Lemma render_from_pivot (df : DataFrame) (ss : gmap string widget_value)
    (page : output) :
  let fdf := filtered_df df (sidebar_selections df ss) in
  upto_pivot df ss [] = (inr (), page) →
  run df ss
  = (inr (), page ++ pivot_controls fdf ss
             ++ pivot_outcome pd_pivot_table fdf ss ++ footer).
Proof.
  intros fdf Hreach. unfold render, script, bind.
  rewrite Hreach, pivot_builder_run. unfold emit. fold fdf.
  by rewrite <- !app_assoc.
Qed.

Lemma render_run (df : DataFrame) (ss : gmap string widget_value)
    (rate : option Q) (summary : list (string * nat)) :
  let sel := sidebar_selections df ss in
  let fdf := filtered_df df sel in
  attrition_rate fdf = inr rate →
  drawn fdf (tabs float_repr fdf rate) →
  describe fdf = inr summary →
  run df ss
  = (inr (), full_page df sel rate summary
             ++ pivot_controls fdf ss
             ++ pivot_outcome pd_pivot_table fdf ss
             ++ footer).
Proof.
  intros sel fdf Hrate Hdrawn Hsum. apply render_from_pivot.
  by apply before_pivot_run.
Qed.

Lemma render_stops_at_rate (df : DataFrame) (ss : gmap string widget_value)
    (e : Exception) :
  let sel := sidebar_selections df ss in
  attrition_rate (filtered_df df sel) = inl e →
  run df ss = (inl e, sidebar df sel ++ heading ++ overview_head).
Proof.
  intros sel Hrate.
  unfold render, script, before_pivot, bind, emit, lift.
  fold sel. by rewrite Hrate.
Qed.

Lemma render_stops_at_describe (df : DataFrame)
    (ss : gmap string widget_value) (rate : option Q) (e : Exception) :
  let sel := sidebar_selections df ss in
  let fdf := filtered_df df sel in
  attrition_rate fdf = inr rate →
  drawn fdf (tabs float_repr fdf rate) →
  describe fdf = inl e →
  run df ss
  = (inl e, sidebar df sel ++ heading ++ overview_head
            ++ overview fdf rate ++ breakdown fdf ++ drivers fdf
            ++ demographics fdf ++ downloads float_repr fdf).
Proof.
  intros sel fdf Hrate Hdrawn Hsum.
  unfold render, script, before_pivot, bind, emit, lift.
  fold sel. fold fdf. rewrite Hrate.
  unfold tabs in Hdrawn. rewrite (show_all_drawn fdf _ _ Hdrawn), Hsum.
  f_equal.
Qed.

End RenderProperties.

(** ** The pivot builder in a render pass *)

Lemma selectbox_in_options ss options key s :
  selectbox ss options key = Some s → s ∈ options.
Proof.
  unfold selectbox. intros Hs.
  assert (Hhead : head options = Some s → s ∈ options).
  { destruct options; [done|]. intros [= ->]. left. }
  destruct (ss !! key) as [[l|x]|]; [by apply Hhead| |by apply Hhead].
  destruct (decide (x ∈ options)); [by injection Hs as <-|by apply Hhead].
Qed.

Lemma selectbox_some ss options key :
  options ≠ [] → ∃ s, selectbox ss options key = Some s.
Proof.
  intros Hne. unfold selectbox.
  assert (Hhead : ∃ s, head options = Some s)
    by (destruct options; [done|by eexists]).
  destruct (ss !! key) as [[l|x]|]; try done.
  destruct (decide (x ∈ options)); [by eexists|done].
Qed.

Section PivotControls.

Variable float_repr : Qc → string.
Variable drawing_error : DataFrame → figure → option Exception.
Context {Pivot : Type}.
Variable pd_pivot_table :
  DataFrame → option string → option string → option string
  → Exception + Pivot.

Local Abbreviation output := (@output Pivot).
Local Abbreviation run :=
  (@render float_repr drawing_error Pivot pd_pivot_table).


End PivotControls.


Section FailedPivot.

Variable float_repr : Qc → string.
Variable drawing_error : DataFrame → figure → option Exception.
Context {Pivot : Type}.
Variable pd_pivot_table :
  DataFrame → option string → option string → option string
  → Exception + Pivot.

Local Abbreviation output := (@output Pivot).

(** C7: when the pivot requested in a render pass makes
    [pd.pivot_table] raise, the exception does not leave the builder:
    the pass runs to its end, the page shows the warning with the
    exception's message in the pivot's place, and every other element
    (the views of the filtered table before it, the controls, the
    footer) is what the page holds whatever the pivot call does. *)
Theorem failed_pivot_is_a_warning (df : DataFrame)
    (ss : gmap string widget_value) (page : output)
    (row col agg : option string) (e : Exception) :
  let sel := sidebar_selections df ss in
  let fdf := filtered_df df sel in
  reaches_pivot_builder float_repr drawing_error df ss page →
  pivot_call fdf ss = Some (row, col, agg) →
  pd_pivot_table fdf row col agg = inl e →
  (∀ out : output,
     pivot_builder pd_pivot_table fdf ss out
     = (inr (), out ++ pivot_controls fdf ss
                ++ [(Tab 4, StWarning ("Pivot error: " ++ message e))]))
  ∧ render float_repr drawing_error pd_pivot_table df ss
    = (inr (), page ++ pivot_controls fdf ss
               ++ [(Tab 4, StWarning ("Pivot error: " ++ message e))]
               ++ footer)
  ∧ (∃ rate summary,
       attrition_rate fdf = inr rate ∧ describe fdf = inr summary
       ∧ page = page_before_pivot float_repr df sel rate summary)
  ∧ ∀ pivot_table' : DataFrame → option string → option string
                     → option string → Exception + Pivot,
      render float_repr drawing_error pivot_table' df ss
      = (inr (), page ++ pivot_controls fdf ss
                 ++ pivot_outcome pivot_table' fdf ss
                 ++ footer).
Proof.
  intros sel fdf Hreach Hcall Hraise.
  assert (Hout : pivot_outcome pd_pivot_table fdf ss
                 = [(Tab 4, StWarning ("Pivot error: " ++ message e))]).
  { unfold pivot_outcome. by rewrite Hcall, Hraise. }
  split; [|split; [|split]].
  - intros out. by rewrite pivot_builder_run, Hout.
  - rewrite (render_from_pivot float_repr drawing_error pd_pivot_table
               df ss page Hreach).
    fold sel. fold fdf. by rewrite Hout.
  - destruct (before_pivot_reached float_repr drawing_error df ss page
                Hreach) as (rate & summary & Hrate & _ & Hsum & Hpage).
    by exists rate, summary.
  - intros pivot_table'.
    apply (render_from_pivot float_repr drawing_error pivot_table'
             df ss page Hreach).
Qed.

End FailedPivot.

Lemma failed_pivot_is_a_warning_witness :
  reaches_pivot_builder (Pivot := list string)
    sample_float_repr always_drawn scenario_gender mean_request
    (before_pivot sample_float_repr always_drawn scenario_gender
       mean_request []).2
  ∧ pivot_call (filtered_df scenario_gender
                  (sidebar_selections scenario_gender mean_request))
               mean_request
    = Some (Some "Department", Some "Attrition", Some "mean")
  ∧ sample_pivot_table
      (filtered_df scenario_gender
         (sidebar_selections scenario_gender mean_request))
      (Some "Department") (Some "Attrition") (Some "mean")
    = inl (LibraryError "agg function failed [how->mean,dtype->object]")
  ∧ (render sample_float_repr always_drawn sample_pivot_table
       scenario_gender mean_request).1 = inr ()
  ∧ (Tab 4, StWarning
              "Pivot error: agg function failed [how->mean,dtype->object]")
    ∈ (render sample_float_repr always_drawn sample_pivot_table
         scenario_gender mean_request).2.
Proof.
  assert (Hreach : reaches_pivot_builder (Pivot := list string)
                     sample_float_repr always_drawn
                     scenario_gender mean_request
                     (before_pivot sample_float_repr always_drawn
                        scenario_gender mean_request []).2)
    by (vm_compute; reflexivity).
  split; [exact Hreach|].
  split; [reflexivity|]. split; [reflexivity|].
  destruct (failed_pivot_is_a_warning sample_float_repr always_drawn
              sample_pivot_table scenario_gender
              mean_request _ (Some "Department") (Some "Attrition")
              (Some "mean")
              (LibraryError "agg function failed [how->mean,dtype->object]")
              Hreach eq_refl eq_refl) as (_ & Hrender & _).
  rewrite Hrender. split; [reflexivity|].
  cbn [snd]. rewrite !elem_of_app. right. right. left. left.
Defined.


(** ** Missing columns *)

Lemma filter_step_absent (d : DataFrame) (cs : string * list value) :
  cs.1 ∉ columns d → filter_step d cs = d.
Proof.
  intros Hc. unfold filter_step. by rewrite bool_decide_eq_false_2.
Qed.

Lemma view_title_inj v v' : view_title v = view_title v' → v = v'.
Proof. destruct v, v'; cbn; intros Heq; try reflexivity; discriminate Heq. Qed.

Lemma view_guard_spec (fdf : DataFrame) (v : view) :
  forallb (has fdf) (view_columns v) = true
  ↔ ∀ c, c ∈ view_columns v → c ∈ columns fdf.
Proof.
  rewrite forallb_forall. unfold has. split.
  - intros Hall c Hc. apply list_elem_of_In in Hc.
    apply Hall in Hc. by apply bool_decide_eq_true in Hc.
  - intros Hall c Hc. apply list_elem_of_In in Hc.
    apply bool_decide_eq_true. by apply Hall.
Qed.

Section OmissionPolicy.

Variable float_repr : Qc → string.
Variable drawing_error : DataFrame → figure → option Exception.
Context {Pivot : Type}.
Variable pd_pivot_table :
  DataFrame → option string → option string → option string
  → Exception + Pivot.

Local Abbreviation output := (@output Pivot).
Local Abbreviation element := (@element Pivot).

Lemma chart_shown_items (title : string) (out : output) :
  chart_shown title out ↔ IChart title ∈ items out.
Proof.
  unfold chart_shown, items. rewrite list_elem_of_omap. split.
  - intros (t & c & Hin & <-). by exists (t, StPlotlyChart c).
  - intros ([t e] & Hin & Hsome). destruct e; cbn in Hsome; try done.
    exists t, c. split; [done|]. congruence.
Qed.

Lemma heatmap_shown_items (out : output) :
  heatmap_shown out ↔ ∃ cols, IHeatmap cols ∈ items out.
Proof.
  unfold heatmap_shown, items. split.
  - intros (t & cols & Hin). exists cols. apply list_elem_of_omap.
    by exists (t, StPyplotHeatmap cols).
  - intros (cols & Hin). apply list_elem_of_omap in Hin as ([t e] & Hin & Hsome).
    destruct e; cbn in Hsome; try done. by exists t, cols0.
Qed.

Lemma metric_shown_items (lbl : string) (m : metric_value) (out : output) :
  metric_shown lbl m out ↔ IMetric lbl m ∈ items out.
Proof.
  unfold metric_shown, items. rewrite list_elem_of_omap. split.
  - intros (t & Hin). by exists (t, StMetric lbl m).
  - intros ([t e] & Hin & Hsome). destruct e; cbn in Hsome; try done.
    exists t. by simplify_eq.
Qed.

Lemma items_app (out1 out2 : output) :
  items (out1 ++ out2) = items out1 ++ items out2.
Proof. apply omap_app. Qed.

(** Case analysis on the column tests of a block. *)
Ltac by_guards :=
  unfold charts_of, heatmap_item, has, overview_views, breakdown_views,
    drivers_views, demographics_views;
  cbn [mbind list_bind view_columns forallb];
  repeat match goal with
         | |- context [bool_decide (?c ∈ columns ?d)] =>
             generalize (bool_decide (c ∈ columns d)); intro
         | |- context [(?n <? ?m)%nat] =>
             generalize (n <? m)%nat; intro
         end;
  repeat match goal with b : bool |- _ => destruct b end;
  reflexivity.

Lemma items_overview (fdf : DataFrame) (rate : option Q) :
  items (overview fdf rate : output)
  = IMetric RATE_LABEL (format_rate rate)
    :: charts_of fdf overview_views.
Proof. unfold overview. by_guards. Qed.

Lemma items_breakdown (fdf : DataFrame) :
  items (breakdown fdf : output)
  = charts_of fdf breakdown_views.
Proof. unfold breakdown. by_guards. Qed.

Lemma items_drivers (fdf : DataFrame) :
  items (drivers fdf : output)
  = charts_of fdf drivers_views ++ heatmap_item fdf.
Proof. unfold drivers. by_guards. Qed.

Lemma items_demographics (fdf : DataFrame) :
  items (demographics fdf : output)
  = charts_of fdf demographics_views.
Proof. unfold demographics. by_guards. Qed.

Lemma items_pivot_outcome (fdf : DataFrame) (ss : gmap string widget_value) :
  items (pivot_outcome pd_pivot_table fdf ss) = [].
Proof.
  unfold pivot_outcome.
  destruct (pivot_call fdf ss) as [[[row col] agg]|]; [|done].
  by destruct (pd_pivot_table fdf row col agg).
Qed.

Lemma page_items (df : DataFrame) (sel : Selections) (rate : option Q)
    (summary : list (string * nat)) (ss : gmap string widget_value) :
  let fdf := filtered_df df sel in
  items (page_before_pivot float_repr df sel rate summary
         ++ pivot_controls fdf ss
         ++ pivot_outcome pd_pivot_table fdf ss ++ footer)
  = IMetric RATE_LABEL (format_rate rate)
    :: charts_of fdf overview_views
    ++ charts_of fdf breakdown_views
    ++ (charts_of fdf drivers_views ++ heatmap_item fdf)
    ++ charts_of fdf demographics_views.
Proof.
  intros fdf. unfold page_before_pivot. fold fdf.
  rewrite !items_app, items_pivot_outcome, items_overview, items_breakdown,
    items_drivers, items_demographics.
  change (items (sidebar df sel)) with (@nil item).
  change (items heading) with (@nil item).
  change (items overview_head) with (@nil item).
  change (items (downloads float_repr fdf)) with (@nil item).
  change (items [(Tab 4, StSummary summary)]) with (@nil item).
  change (items (pivot_controls fdf ss)) with (@nil item).
  change (items footer) with (@nil item).
  cbn [app]. by rewrite !app_nil_r.
Qed.

Lemma elem_of_charts_of (fdf : DataFrame) (vs : list view) (i : item) :
  i ∈ charts_of fdf vs
  ↔ ∃ v, v ∈ vs ∧ i = IChart (view_title v)
         ∧ ∀ c, c ∈ view_columns v → c ∈ columns fdf.
Proof.
  unfold charts_of. rewrite list_elem_of_bind. split.
  - intros (v & Hin & Hv).
    destruct (forallb _ (view_columns v)) eqn:Hg;
      [|by apply elem_of_nil in Hin].
    apply list_elem_of_singleton in Hin. exists v.
    split; [done|]. split; [done|]. by apply view_guard_spec.
  - intros (v & Hv & -> & Hall). exists v. split; [|done].
    apply view_guard_spec in Hall. unfold has in Hall. rewrite Hall. left.
Qed.

Lemma elem_of_heatmap_item (fdf : DataFrame) (i : item) :
  i ∈ heatmap_item fdf
  ↔ i = IHeatmap (num_cols fdf) ∧ (1 < length (num_cols fdf))%nat.
Proof.
  unfold heatmap_item.
  destruct (1 <? length (num_cols fdf))%nat eqn:Hlt.
  - apply Nat.ltb_lt in Hlt. rewrite list_elem_of_singleton. tauto.
  - apply Nat.ltb_ge in Hlt. rewrite elem_of_nil. split; [done|lia].
Qed.

Lemma elem_of_views (v : view) :
  v ∈ overview_views ∨ v ∈ breakdown_views ∨ v ∈ drivers_views
  ∨ v ∈ demographics_views.
Proof.
  unfold overview_views, breakdown_views, drivers_views, demographics_views.
  rewrite !elem_of_cons. destruct v; tauto.
Qed.

(** Membership in the items of a page, by kind of item. *)
Lemma elem_of_page_items (fdf : DataFrame) (rate : option Q) (i : item) :
  i ∈ IMetric RATE_LABEL (format_rate rate)
      :: charts_of fdf overview_views
      ++ charts_of fdf breakdown_views
      ++ (charts_of fdf drivers_views ++ heatmap_item fdf)
      ++ charts_of fdf demographics_views
  ↔ match i with
    | IChart title =>
        ∃ v, title = view_title v
             ∧ ∀ c, c ∈ view_columns v → c ∈ columns fdf
    | IHeatmap cols =>
        cols = num_cols fdf ∧ (1 < length (num_cols fdf))%nat
    | IMetric lbl m => lbl = RATE_LABEL ∧ m = format_rate rate
    end.
Proof.
  rewrite elem_of_cons, !elem_of_app.
  rewrite (elem_of_charts_of fdf overview_views),
    (elem_of_charts_of fdf breakdown_views),
    (elem_of_charts_of fdf drivers_views),
    (elem_of_charts_of fdf demographics_views), elem_of_heatmap_item.
  destruct i as [title|cols|lbl m].
  - split.
    + intros [Hm|[(v & _ & [= ->] & Hall)|[(v & _ & [= ->] & Hall)|
              [[(v & _ & [= ->] & Hall)|[Hh _]]|(v & _ & [= ->] & Hall)]]]];
        try discriminate; by exists v.
    + intros (v & -> & Hall). right.
      destruct (elem_of_views v) as [Hv|[Hv|[Hv|Hv]]].
      * left. by exists v.
      * right. left. by exists v.
      * right. right. left. left. by exists v.
      * right. right. right. by exists v.
  - split.
    + intros [Hm|[(v & _ & Hv & _)|[(v & _ & Hv & _)|
              [[(v & _ & Hv & _)|[[= ->] Hlt]]|(v & _ & Hv & _)]]]];
        try discriminate. done.
    + intros [-> Hlt]. right. right. right. left. by right.
  - split.
    + intros [[= -> ->]|[(v & _ & Hv & _)|[(v & _ & Hv & _)|
              [[(v & _ & Hv & _)|[Hh _]]|(v & _ & Hv & _)]]]];
        try discriminate. done.
    + intros [-> ->]. by left.
Qed.


End OmissionPolicy.


(** The table read from [flags_file] has the Attrition column, so the
    guard of line 62 passes; the column holds a boolean and a missing
    value, and the rate is not computed: line 62 raises. *)
Example flags_frame :
  load_data parse_integer refuse_irregular flags_file = inr flagged_attrition.
Proof. reflexivity. Qed.

Lemma guarded_rate_fails_on_flags : ¬ guarded_rate_succeeds.
Proof.
  intros Hclaim.
  destruct (Hclaim flagged_attrition) as [rate Hrate]; [compute_done|].
  discriminate Hrate.
Qed.

Lemma all_drawn_always {Pivot : Type} (fdf : DataFrame)
    (es : @output Pivot) :
  all_drawn always_drawn fdf es.
Proof. by intros te fg _ _. Qed.


(** ** CSV export and re-import *)

Lemma parse_decimal_number_text (z : Z) : parse_decimal (number_text z) = Some z.
Proof.
  unfold parse_decimal, number_text.
  rewrite NilZero.isi.
  - cbn. by rewrite DecimalZ.of_to.
  - destruct z; cbn; try done. intros [= H]. by apply Unsigned.to_uint_nonnil in H.
  - destruct z; cbn; try done. intros [= H]. by apply Unsigned.to_uint_nonnil in H.
Qed.

Lemma na_values_not_decimal (f : string) : is_na f = true → parse_decimal f = None.
Proof.
  unfold is_na. intros Hna. apply bool_decide_eq_true in Hna.
  unfold NA_VALUES in Hna. rewrite !elem_of_cons in Hna.
  repeat (destruct Hna as [->|Hna]; [reflexivity|]).
  by apply elem_of_nil in Hna.
Qed.

Lemma number_text_not_na (z : Z) : is_na (number_text z) = false.
Proof.
  destruct (is_na (number_text z)) eqn:Hna; [|done].
  apply na_values_not_decimal in Hna.
  by rewrite parse_decimal_number_text in Hna.
Qed.

Lemma parse_bool_literals (f : string) (b : bool) :
  parse_bool f = Some b →
  f ∈ ["True"; "TRUE"; "true"; "False"; "FALSE"; "false"].
Proof.
  unfold parse_bool. intros Hp. repeat case_bool_decide; try done.
  - rewrite !elem_of_cons in *. tauto.
  - rewrite !elem_of_cons in *. tauto.
Qed.

Lemma bool_literal_not_na (f : string) (b : bool) :
  parse_bool f = Some b → is_na f = false.
Proof.
  intros Hp. apply parse_bool_literals in Hp.
  rewrite !elem_of_cons in Hp.
  repeat (destruct Hp as [->|Hp]; [reflexivity|]).
  by apply elem_of_nil in Hp.
Qed.

Lemma bool_literal_not_decimal (f : string) :
  is_Some (parse_bool f) → parse_decimal f = None.
Proof.
  intros [b Hp]. apply parse_bool_literals in Hp.
  rewrite !elem_of_cons in Hp.
  repeat (destruct Hp as [->|Hp]; [reflexivity|]).
  by apply elem_of_nil in Hp.
Qed.

Lemma parse_bool_cell_text (float_repr : Qc → string) (b : bool) :
  parse_bool (cell_text float_repr (VBool b)) = Some b.
Proof. by destruct b. Qed.

Lemma imap_ignore {A B} (f : A → B) (l : list A) :
  imap (λ _ x, f x) l = f <$> l.
Proof. apply (imap_const f). Qed.

Lemma forallb_Forall {A} (f : A → bool) (l : list A) :
  forallb f l = true ↔ Forall (λ x, f x = true) l.
Proof.
  induction l as [|x l IH]; cbn.
  - split; [constructor|done].
  - rewrite andb_true_iff, Forall_cons, IH. tauto.
Qed.

Lemma forallb_false_elem {A} (f : A → bool) (l : list A) (x : A) :
  x ∈ l → f x = false → forallb f l = false.
Proof.
  intros Hin Hx. destruct (forallb f l) eqn:Hall; [|done].
  apply forallb_Forall in Hall. rewrite Forall_forall in Hall.
  specialize (Hall x Hin). congruence.
Qed.

Lemma forallb_false_exists {A} (f : A → bool) (l : list A) :
  forallb f l = false → ∃ x, x ∈ l ∧ f x = false.
Proof.
  induction l as [|x l IH]; [done|]. cbn.
  destruct (f x) eqn:Hx.
  - intros (y & Hy & Hfy)%IH. exists y. split; [by right|done].
  - intros _. exists x. split; [left|done].
Qed.

Lemma forallb_fmap_true {A B} (t : B → bool) (g : A → B) (l : list A) :
  (∀ x, x ∈ l → t (g x) = true) → forallb t (g <$> l) = true.
Proof.
  intros Hall. apply forallb_Forall, Forall_fmap, Forall_forall.
  intros x Hx. by apply Hall.
Qed.

Lemma forallb_fmap_false {A B} (t : B → bool) (g : A → B) (l : list A)
    (x : A) :
  x ∈ l → t (g x) = false → forallb t (g <$> l) = false.
Proof.
  intros Hin Hx. apply (forallb_false_elem _ _ (g x)); [|done].
  apply list_elem_of_fmap. by exists x.
Qed.

Lemma fmap_col_name_zip (names : list string) (dts : list dtype) :
  length names = length dts → col_name <$> zip_with Col names dts = names.
Proof.
  revert dts. induction names as [|n names IH]; intros [|d dts] Hlen;
    try done.
  cbn. f_equal. apply IH. by injection Hlen.
Qed.

Lemma boolean_field_spec (f : string) :
  boolean_field f = true ↔ ∃ b, parse_bool f = Some b.
Proof. unfold boolean_field. by rewrite bool_decide_eq_true. Qed.

Lemma boolean_field_false (f : string) :
  boolean_field f = false ↔ parse_bool f = None.
Proof.
  unfold boolean_field. rewrite bool_decide_eq_false.
  destruct (parse_bool f) as [b|].
  - split; [|done]. intros H. destruct H. by eexists.
  - split; [done|]. by intros _ [x Hx].
Qed.

(** *** What [read_csv] makes of a regular file *)

Section Reading.

Variable float_repr : Qc → string.
Variable parse_number : string → option number.

Local Abbreviation infer := (infer_kind parse_number).
Local Abbreviation conv := (convert parse_number).
Local Abbreviation text := (cell_text float_repr).

Lemma infer_kind_nonempty (fields : list string) :
  fields ≠ [] →
  infer fields
  = if forallb (number_or_na parse_number) fields
    then if forallb (integer_field parse_number) fields then KInt else KFloat
    else if forallb boolean_field fields then KBoolean
    else if forallb boolean_or_na fields then KBooleanNA
    else KText.
Proof. by destruct fields. Qed.

Lemma number_or_na_false (f : string) :
  number_or_na parse_number f = false ↔
  is_na f = false ∧ parse_number f = None.
Proof.
  unfold number_or_na. rewrite orb_false_iff, bool_decide_eq_false.
  destruct (parse_number f) as [n|].
  - split; intros [H1 H2]; [|done]. destruct H2. by eexists.
  - split; intros [H1 H2]; (split; [done|]); [done|]. by intros [x Hx].
Qed.

Lemma loaded_kind (header : list string) (body : list (list string))
    (j : nat) :
  j < length header →
  ((λ j, infer (column_fields body j)) <$> seq 0 (length header)) !! j
  = Some (infer (column_fields body j)).
Proof. intros Hj. by rewrite list_lookup_fmap, lookup_seq_lt. Qed.

Lemma read_regular_columns (header : list string)
    (body : list (list string)) :
  columns (read_regular parse_number header body) = header.
Proof.
  unfold columns, read_regular. cbn [schema]. apply fmap_col_name_zip.
  by rewrite !length_fmap, length_seq.
Qed.

Lemma read_regular_labels (header : list string)
    (body : list (list string)) :
  label <$> rows (read_regular parse_number header body)
  = seq 0 (length body).
Proof.
  unfold read_regular. cbn [rows]. rewrite fmap_imap. unfold compose.
  cbn [label]. by rewrite (imap_seq_0 body (λ i, i)), list_fmap_id.
Qed.

Lemma read_regular_cells (header : list string) (body : list (list string)) :
  cells <$> rows (read_regular parse_number header body)
  = (λ rec, imap (λ j k, conv k (field rec j))
                 ((λ j, infer (column_fields body j))
                    <$> seq 0 (length header))) <$> body.
Proof.
  unfold read_regular. cbn [rows]. rewrite fmap_imap. unfold compose.
  cbn [cells]. apply imap_ignore.
Qed.

Lemma read_regular_rectangular (header : list string)
    (body : list (list string)) :
  rectangular (read_regular parse_number header body).
Proof.
  unfold rectangular. rewrite <- (Forall_fmap cells
    (λ cs, length cs = length (schema (read_regular parse_number header body)))).
  rewrite read_regular_cells. apply Forall_fmap, Forall_forall.
  intros rec _. cbn. unfold read_regular. cbn [schema].
  by rewrite length_imap, length_zip_with, !length_fmap, length_seq,
    Nat.min_id.
Qed.

Lemma read_regular_column (header : list string) (body : list (list string))
    (j : nat) :
  j < length header →
  column_cells (read_regular parse_number header body) j
  = conv (infer (column_fields body j)) <$> column_fields body j.
Proof.
  intros Hj. unfold column_cells, read_regular. cbn [rows].
  rewrite fmap_imap. unfold compose. cbn [cells]. rewrite imap_ignore.
  trans ((λ rec, conv (infer (column_fields body j)) (field rec j)) <$> body).
  - apply list_fmap_ext. intros i rec _. cbn.
    by rewrite list_lookup_imap, loaded_kind.
  - unfold column_fields. by rewrite <- list_fmap_compose.
Qed.

Lemma read_regular_dtype (header : list string) (body : list (list string))
    (j : nat) (c : column) :
  schema (read_regular parse_number header body) !! j = Some c →
  j < length header
  ∧ header !! j = Some (col_name c)
  ∧ col_dtype c = kind_dtype (infer (column_fields body j)).
Proof.
  unfold read_regular. cbn [schema]. intros Hc.
  apply lookup_zip_with_Some in Hc as (n & dt & -> & Hn & Hdt).
  assert (Hj : j < length header) by (by eapply lookup_lt_Some).
  rewrite list_lookup_fmap, loaded_kind in Hdt by done.
  injection Hdt as <-. done.
Qed.

Lemma column_fields_to_csv (df : DataFrame) (j : nat) :
  column_fields ((λ r, text <$> cells r) <$> rows df) j
  = text <$> column_cells df j.
Proof.
  unfold column_fields, column_cells, field. rewrite <- !list_fmap_compose.
  apply list_fmap_ext. intros i r _. cbn.
  rewrite list_lookup_fmap. by destruct (cells r !! j).
Qed.

Lemma convert_not_text (k : kind) (f s : string) :
  k ≠ KText → conv k f ≠ VStr s.
Proof.
  intros Hk. unfold convert. destruct (is_na f); [done|].
  destruct k; try done.
  - by destruct (parse_number f) as [[z|x]|].
  - by destruct (parse_number f) as [[z|x]|].
  - by destruct (parse_bool f).
  - by destruct (parse_bool f).
Qed.

Lemma convert_fits (fields : list string) (f : string) :
  f ∈ fields → kind_fits (infer fields) (conv (infer fields) f).
Proof.
  intros Hin.
  assert (Hne : fields ≠ []) by (intros ->; by apply elem_of_nil in Hin).
  destruct (infer fields) eqn:Hk; unfold convert; cbn;
    rewrite infer_kind_nonempty in Hk by done.
  - destruct (forallb (number_or_na parse_number) fields); [|by repeat case_match].
    destruct (forallb (integer_field parse_number) fields) eqn:Hall; [|done].
    apply forallb_Forall in Hall. rewrite Forall_forall in Hall.
    specialize (Hall f Hin). unfold integer_field in Hall.
    apply andb_true_iff in Hall as [Hna Hint].
    apply negb_true_iff in Hna. rewrite Hna.
    by destruct (parse_number f) as [[z|x]|].
  - destruct (is_na f); [done|]. by destruct (parse_number f).
  - destruct (forallb (number_or_na parse_number) fields);
      [by repeat case_match|].
    destruct (forallb boolean_field fields) eqn:Hall; [|by repeat case_match].
    apply forallb_Forall in Hall. rewrite Forall_forall in Hall.
    specialize (Hall f Hin). apply boolean_field_spec in Hall as [b Hb].
    rewrite (bool_literal_not_na f b Hb), Hb. by exists b.
  - destruct (is_na f); [done|]. by destruct (parse_bool f).
  - by destruct (is_na f) eqn:Hna.
Qed.

Lemma kind_fits_typed (k : kind) (cs : list value) :
  Forall (kind_fits k) cs → column_typed (kind_dtype k) cs.
Proof. destruct k; cbn; [by left|by right|done|by left|by right]. Qed.

End Reading.

(** *** The export read back *)

Section RoundTripProperties.

Variable float_repr : Qc → string.
Variable parse_number : string → option number.
Variable read_irregular : list (list string) → Exception + DataFrame.

(** What is asked of the parser: it takes no boolean literal for a
    number. *)
Hypothesis parse_number_bool : booleans_are_not_numbers parse_number.

Local Abbreviation infer := (infer_kind parse_number).
Local Abbreviation conv := (convert parse_number).
Local Abbreviation text := (cell_text float_repr).
Local Abbreviation reads_back := (reads_back float_repr parse_number).
Local Abbreviation stable_column :=
  (stable_column float_repr parse_number).
Local Abbreviation unstable_text := (unstable_text parse_number).

Lemma written_bool_tests (b : bool) :
  is_na (text (VBool b)) = false
  ∧ parse_number (text (VBool b)) = None
  ∧ parse_bool (text (VBool b)) = Some b.
Proof.
  split; [|split].
  - apply (bool_literal_not_na _ b), parse_bool_cell_text.
  - apply parse_number_bool. rewrite parse_bool_cell_text. by eexists.
  - apply parse_bool_cell_text.
Qed.

Lemma infer_ints (cs : list value) :
  cs ≠ [] → Forall integer_cell cs → reads_back cs →
  infer (text <$> cs) = KInt.
Proof.
  intros Hne Hall [Hint _]. rewrite Forall_forall in Hall.
  assert (Hf : ∀ v, v ∈ cs → is_na (text v) = false
                              ∧ is_int (parse_number (text v)) = true).
  { intros v Hv. specialize (Hall v Hv).
    destruct v as [s|z|x|b|]; cbn in Hall; try done. cbn [cell_text].
    by rewrite number_text_not_na, (Hint z Hv). }
  rewrite infer_kind_nonempty by (by destruct cs).
  rewrite forallb_fmap_true.
  - rewrite forallb_fmap_true; [done|]. intros v Hv.
    destruct (Hf v Hv) as [Hna Hi]. unfold integer_field.
    by rewrite Hna, Hi.
  - intros v Hv. destruct (Hf v Hv) as [Hna Hi]. unfold number_or_na.
    rewrite Hna. cbn. apply bool_decide_eq_true.
    by destruct (parse_number (text v)).
Qed.

Lemma infer_floats (cs : list value) :
  cs ≠ [] → Forall float_or_nan cs → reads_back cs →
  infer (text <$> cs) = KFloat.
Proof.
  intros Hne Hall [_ Hfloat]. rewrite Forall_forall in Hall.
  rewrite infer_kind_nonempty by (by destruct cs).
  rewrite forallb_fmap_true.
  - destruct cs as [|c cs]; [done|].
    rewrite (forallb_fmap_false _ _ (c :: cs) c); [done|left|].
    specialize (Hall c ltac:(left)).
    destruct c as [s|z|x|b|]; cbn in Hall; try done; unfold integer_field.
    cbn [cell_text]. destruct (Hfloat x ltac:(left)) as [-> ->]. done.
  - intros v Hv. specialize (Hall v Hv). unfold number_or_na.
    destruct v as [s|z|x|b|]; cbn in Hall; try done.
    cbn [cell_text]. destruct (Hfloat x Hv) as [-> ->]. done.
Qed.

Lemma infer_boolean (cs : list value) (b : bool) :
  Forall boolean_or_nan cs → VBool b ∈ cs →
  infer (text <$> cs) = KBoolean ∨ infer (text <$> cs) = KBooleanNA.
Proof.
  intros Hall Hin.
  rewrite infer_kind_nonempty
    by (intros Hnil; apply fmap_nil_inv in Hnil; subst;
        by apply elem_of_nil in Hin).
  destruct (written_bool_tests b) as (Hna & Hn & Hp).
  rewrite (forallb_fmap_false _ _ cs (VBool b) Hin).
  2:{ apply number_or_na_false. by split. }
  destruct (forallb boolean_field (text <$> cs)); [by left|right].
  rewrite forallb_fmap_true; [done|]. intros v Hv.
  rewrite Forall_forall in Hall. specialize (Hall v Hv).
  destruct v as [s|z|x|b'|]; cbn in Hall; try done.
  unfold boolean_or_na.
  rewrite (proj2 (boolean_field_spec _)); [apply orb_true_r|].
  exists b'. apply parse_bool_cell_text.
Qed.

Lemma infer_text (cs : list value) (s1 s2 : string) :
  Forall text_or_nan cs →
  VStr s1 ∈ cs → parse_number s1 = None →
  VStr s2 ∈ cs → parse_bool s2 = None →
  infer (text <$> cs) = KText.
Proof.
  intros Hall Hin1 Hn1 Hin2 Hn2. rewrite Forall_forall in Hall.
  pose proof (Hall _ Hin1) as Hna1. pose proof (Hall _ Hin2) as Hna2.
  cbn in Hna1, Hna2.
  rewrite infer_kind_nonempty
    by (intros Hnil; apply fmap_nil_inv in Hnil; subst;
        by apply elem_of_nil in Hin1).
  rewrite (forallb_fmap_false _ _ cs (VStr s1) Hin1).
  2:{ apply number_or_na_false. by split. }
  rewrite (forallb_fmap_false _ _ cs (VStr s2) Hin2).
  2:{ by apply boolean_field_false. }
  rewrite (forallb_fmap_false _ _ cs (VStr s2) Hin2); [done|].
  unfold boolean_or_na. cbn [cell_text]. rewrite Hna2.
  by apply boolean_field_false.
Qed.

Lemma convert_boolean (k : kind) (c : value) :
  k = KBoolean ∨ k = KBooleanNA → boolean_or_nan c → conv k (text c) = c.
Proof.
  intros Hk Hc. destruct c as [s|z|x|b|]; cbn in Hc; try done.
  unfold convert. destruct (written_bool_tests b) as (-> & _ & Hp).
  destruct Hk as [->| ->]; by rewrite Hp.
Qed.

Lemma convert_text (c : value) : text_or_nan c → conv KText (text c) = c.
Proof.
  intros Hc. destruct c as [s|z|x|b|]; cbn in Hc; try done.
  unfold convert. cbn [cell_text]. by rewrite Hc.
Qed.

Lemma convert_number (k : kind) (cs : list value) (c : value) :
  (k = KInt ∧ Forall integer_cell cs) ∨ (k = KFloat ∧ Forall float_or_nan cs) →
  reads_back cs → c ∈ cs → conv k (text c) = c.
Proof.
  intros Hk [Hint Hfloat] Hin. unfold convert.
  destruct Hk as [[-> Hall]|[-> Hall]]; rewrite Forall_forall in Hall;
    specialize (Hall c Hin); destruct c as [s|z|x|b|]; cbn in Hall;
    try done; cbn [cell_text].
  - by rewrite number_text_not_na, (Hint z Hin).
  - destruct (Hfloat x Hin) as [-> ->]. done.
Qed.

Lemma all_missing_reads_back (cs : list value) :
  Forall boolean_or_nan cs → Forall float_or_nan cs → reads_back cs.
Proof.
  rewrite !Forall_forall. intros Hb Hf. split.
  - intros z Hz. by destruct (Hf _ Hz).
  - intros x Hx. by destruct (Hb _ Hx).
Qed.

(** A stable column is converted back cell by cell. *)
Lemma convert_stable (cs : list value) (c : value) :
  stable_column cs → c ∈ cs →
  conv (infer (text <$> cs)) (text c) = c.
Proof.
  intros Hst Hin.
  assert (Hne : cs ≠ []) by (intros ->; by apply elem_of_nil in Hin).
  assert (Hnum : (Forall integer_cell cs ∨ Forall float_or_nan cs) →
                 reads_back cs → conv (infer (text <$> cs)) (text c) = c).
  { intros [Hall|Hall] Hrb.
    - rewrite infer_ints by done.
      apply (convert_number KInt cs); [left|..]; done.
    - rewrite infer_floats by done.
      apply (convert_number KFloat cs); [right|..]; done. }
  destruct Hst
    as [[Hall Hrb]|[Hbool|(Htext & (s1 & Hin1 & Hn1) & (s2 & Hin2 & Hn2))]].
  - by apply Hnum.
  - destruct (decide (Forall float_or_nan cs)) as [Hfl|Hnfl].
    { apply Hnum; [by right|by apply all_missing_reads_back]. }
    assert (Hb : ∃ b, VBool b ∈ cs).
    { apply not_Forall_Exists in Hnfl; [|apply _].
      apply Exists_exists in Hnfl as (v & Hv & Hnv).
      rewrite Forall_forall in Hbool. specialize (Hbool v Hv).
      destruct v as [s|z|x|b|]; cbn in *; try done. by exists b. }
    destruct Hb as [b Hb].
    apply (convert_boolean _ _ (infer_boolean cs b Hbool Hb)).
    rewrite Forall_forall in Hbool. by apply Hbool.
  - rewrite (infer_text cs s1 s2) by done. apply convert_text.
    rewrite Forall_forall in Htext. by apply Htext.
Qed.

(** The strings of an unstable text column are not read back as text. *)
Lemma infer_unstable (cs : list value) :
  unstable_text cs → infer (text <$> cs) ≠ KText.
Proof.
  intros (Htext & (s & Hs) & Hall). rewrite Forall_forall in Htext.
  rewrite infer_kind_nonempty
    by (intros Hnil; apply fmap_nil_inv in Hnil; subst;
        by apply elem_of_nil in Hs).
  destruct Hall as [Hnum|Hbool].
  - rewrite forallb_fmap_true; [by case_match|].
    intros v Hv. specialize (Htext v Hv). unfold number_or_na.
    destruct v as [s'|z|x|b|]; cbn in Htext; try done.
    cbn [cell_text]. rewrite Htext.
    by rewrite (bool_decide_eq_true_2 _ (Hnum s' Hv)).
  - destruct (forallb (number_or_na parse_number) (text <$> cs));
      [by case_match|].
    destruct (forallb boolean_field (text <$> cs)); [done|].
    rewrite forallb_fmap_true; [done|].
    intros v Hv. specialize (Htext v Hv). unfold boolean_or_na.
    destruct v as [s'|z|x|b|]; cbn in Htext; try done.
    cbn [cell_text]. rewrite Htext.
    by rewrite (proj2 (boolean_field_spec s')) by apply (Hbool s' Hv).
Qed.

Lemma export_regular (df : DataFrame) :
  clean_names (columns df) → rectangular df →
  regular (columns df) ((λ r, text <$> cells r) <$> rows df).
Proof.
  intros Hnames Hrect. split; [done|].
  apply Forall_fmap. unfold rectangular in Hrect.
  eapply Forall_impl; [exact Hrect|]. intros r Hr. cbn.
  unfold columns. by rewrite !length_fmap, Hr.
Qed.


End RoundTripProperties.

Lemma parse_integer_bool : booleans_are_not_numbers parse_integer.
Proof.
  intros f Hf. unfold parse_integer.
  by rewrite (bool_literal_not_decimal f Hf).
Qed.

Example codes_frame :
  load_data parse_integer refuse_irregular codes_file
  = inr {| schema := [Col "Department" Object; Col "Code" Object];
           rows := [Row 0 [VStr "A"; VStr "12"];
                    Row 1 [VStr "B"; VStr "A7"]] |}.
Proof. reflexivity. Qed.

Example codes_export_read_back :
  ∀ df, load_data parse_integer refuse_irregular codes_file = inr df →
    to_csv sample_float_repr (filtered_df df only_A)
    = [["Department"; "Code"]; ["A"; "12"]]
    ∧ cells <$> rows (filtered_df df only_A) = [[VStr "A"; VStr "12"]]
    ∧ read_csv parse_integer refuse_irregular
        (to_csv sample_float_repr (filtered_df df only_A))
      = inr {| schema := [Col "Department" Object; Col "Code" Numeric];
               rows := [Row 0 [VStr "A"; VNum 12]] |}.
Proof. intros df [= <-]. by vm_compute. Qed.


Lemma scenario_columns_stable (j : nat) :
  j < length (columns (filtered_df scenario only_A)) →
  stable_column sample_float_repr parse_integer
    (column_cells (filtered_df scenario only_A) j).
Proof.
  intros Hj. destruct j as [|[|j]]; [| |vm_compute in Hj; lia].
  - right. right. split; [by repeat constructor|].
    split; exists "A"; (split; [by left|reflexivity]).
  - right. right. split; [by repeat constructor|].
    split; exists "Yes"; (split; [by left|reflexivity]).
Qed.


(** * Further properties of the script *)

(** ** Options and selections (lines 21-45) *)

Lemma unique_sublist (s : list value) : unique s `sublist_of` s.
Proof.
  induction s as [|v s IH]; [done|].
  cbn. apply sublist_skip. etrans; [apply sublist_filter|exact IH].
Qed.

(** X1: the options of a multiselect ([safe_unique]) are empty for a
    column the frame does not have; otherwise they are the values of the
    column, each once, in an order in which they occur in the column. *)
Theorem safe_unique_lists_each_value_once (df : DataFrame) (c : string) :
  (c ∉ columns df → safe_unique df c = [])
  ∧ NoDup (safe_unique df c)
  ∧ (safe_unique df c `sublist_of` getitem df c)
  ∧ (c ∈ columns df →
     ∀ v, v ∈ safe_unique df c ↔ ∃ r, r ∈ rows df ∧ cell df c r = v).
Proof.
  unfold safe_unique. destruct (decide (c ∈ columns df)) as [Hc|Hc].
  - split; [done|]. split; [apply NoDup_unique|].
    split; [apply unique_sublist|]. intros _ v.
    rewrite elem_of_unique. unfold getitem. rewrite list_elem_of_fmap.
    split; intros (r & H1 & H2); exists r; by split.
  - split; [done|]. split; [constructor|]. split; [apply sublist_nil_l|done].
Qed.

Lemma safe_unique_lists_each_value_once_witness :
  "Department" ∈ columns scenario
  ∧ safe_unique scenario "Department" = [VStr "A"; VStr "B"]
  ∧ (VStr "B" ∈ safe_unique scenario "Department"
     ↔ ∃ r, r ∈ rows scenario ∧ cell scenario "Department" r = VStr "B")
  ∧ ("Age" ∉ columns scenario)
  ∧ safe_unique scenario "Age" = [].
Proof.
  assert (Hin : "Department" ∈ columns scenario) by (cbn; left).
  assert (Hout : "Age" ∉ columns scenario) by compute_done.
  split; [exact Hin|]. split; [reflexivity|].
  split; [|split; [exact Hout|]].
  - exact (proj2 (proj2 (proj2
             (safe_unique_lists_each_value_once scenario "Department")))
             Hin (VStr "B")).
  - exact (proj1 (safe_unique_lists_each_value_once scenario "Age") Hout).
Defined.

(** X2: in a session in which no multiselect has been touched, every
    selection is the full list of options and the filtered table is the
    loaded table itself. *)
Theorem fresh_session_shows_whole_table (df : DataFrame) :
  filtered_df df (sidebar_selections df ∅) = df.
Proof.
  apply DataFrame_eq.
  - apply apply_filters_schema.
  - unfold filtered_df. rewrite apply_filters_rows.
    apply filter_all. intros r Hr.
    apply unconstrained_passes; [apply defaults_unconstrained|done].
Qed.

Lemma same_set_same_emptiness (s1 s2 : list value) :
  (∀ v, v ∈ s1 ↔ v ∈ s2) → s1 ≠ [] ↔ s2 ≠ [].
Proof.
  intros Hset. destruct s1 as [|v1 s1], s2 as [|v2 s2]; try done.
  - exfalso. apply (not_elem_of_nil v2). apply Hset. left.
  - exfalso. apply (not_elem_of_nil v1). apply Hset. left.
Qed.

(** X3: a filter looks at its selection only as a set: two selections
    with the same members, in whatever order and multiplicity, give the
    same table. *)
Theorem filter_depends_on_selected_set (d : DataFrame) (c : string)
    (s1 s2 : list value) :
  (∀ v, v ∈ s1 ↔ v ∈ s2) → filter_step d (c, s1) = filter_step d (c, s2).
Proof.
  intros Hset. apply DataFrame_eq; [by rewrite !filter_step_schema|].
  rewrite !filter_step_rows. apply list_filter_iff. intros r.
  unfold column_test. cbn.
  rewrite (same_set_same_emptiness s1 s2 Hset), Hset. tauto.
Qed.

Lemma filter_depends_on_selected_set_witness :
  (∀ v, v ∈ [VStr "A"; VStr "B"] ↔ v ∈ [VStr "B"; VStr "A"; VStr "B"])
  ∧ filter_step scenario ("Department", [VStr "A"; VStr "B"])
    = filter_step scenario ("Department", [VStr "B"; VStr "A"; VStr "B"]).
Proof.
  assert (Hset : ∀ v, v ∈ [VStr "A"; VStr "B"]
                      ↔ v ∈ [VStr "B"; VStr "A"; VStr "B"]).
  { intros v. rewrite !elem_of_cons, !elem_of_nil. tauto. }
  split; [exact Hset|].
  exact (filter_depends_on_selected_set scenario "Department" _ _ Hset).
Defined.

(** X4: a selection the user has emptied filters nothing: it gives the
    same table as the full list of options, namely the table the filter
    was applied to. *)
Theorem emptied_selection_is_full_selection (d : DataFrame) (c : string) :
  filter_step d (c, []) = d
  ∧ filter_step d (c, safe_unique d c) = d.
Proof.
  split.
  - unfold filter_step. cbn. by rewrite andb_false_r.
  - apply DataFrame_eq; [apply filter_step_schema|].
    rewrite filter_step_rows. apply filter_all.
    intros r Hr Hc _. cbn in *. apply elem_of_safe_unique; [done|].
    unfold getitem. apply list_elem_of_fmap. by exists r.
Qed.

(** X5: once something is selected, selecting less shows less: the rows
    kept for a non-empty selection are a subsequence of the rows kept
    for any selection that contains it. *)
Theorem narrower_selection_keeps_fewer_rows (d : DataFrame) (c : string)
    (s1 s2 : list value) :
  s1 ≠ [] → (∀ v, v ∈ s1 → v ∈ s2) →
  rows (filter_step d (c, s1)) `sublist_of` rows (filter_step d (c, s2)).
Proof.
  intros Hne Hsub. rewrite !filter_step_rows.
  rewrite <- (list_filter_filter_l (column_test d (c, s1))
                (column_test d (c, s2))).
  - apply sublist_filter.
  - intros r Hr Hc _. apply Hsub. apply Hr; [exact Hc|exact Hne].
Qed.

Lemma narrower_selection_keeps_fewer_rows_witness :
  [VStr "A"] ≠ []
  ∧ (∀ v, v ∈ [VStr "A"] → v ∈ [VStr "A"; VStr "B"])
  ∧ rows (filter_step scenario ("Department", [VStr "A"]))
    `sublist_of` rows (filter_step scenario
                         ("Department", [VStr "A"; VStr "B"])).
Proof.
  assert (Hsub : ∀ v, v ∈ [VStr "A"] → v ∈ [VStr "A"; VStr "B"]).
  { intros v. rewrite !elem_of_cons. tauto. }
  assert (Hne : [VStr "A"] ≠ []) by discriminate.
  split; [exact Hne|]. split; [exact Hsub|].
  exact (narrower_selection_keeps_fewer_rows scenario "Department" _ _
           Hne Hsub).
Defined.

Lemma row_passes_schema d d' l r :
  schema d = schema d' → row_passes d l r ↔ row_passes d' l r.
Proof.
  intros Hs. unfold row_passes. rewrite !Forall_forall.
  split; intros Hall cs Hcs; specialize (Hall cs Hcs);
    by apply (column_test_schema d d' cs r Hs).
Qed.

(** X6: filtering is idempotent: running the same filters over an
    already filtered table changes nothing. *)
Theorem filtering_twice_is_filtering_once (l : list (string * list value))
    (d : DataFrame) :
  apply_filters l (apply_filters l d) = apply_filters l d.
Proof.
  apply DataFrame_eq; [by rewrite !apply_filters_schema|].
  rewrite (apply_filters_rows l (apply_filters l d)).
  apply filter_all. intros r Hr.
  apply (row_passes_schema d); [by rewrite apply_filters_schema|].
  rewrite apply_filters_rows in Hr.
  by apply list_elem_of_filter in Hr as [Hp _].
Qed.

(** X7: a non-empty selection none of whose values occurs in the column
    leaves no row. *)
Theorem selection_without_match_leaves_no_row (d : DataFrame) (c : string)
    (s : list value) :
  c ∈ columns d → s ≠ [] →
  (∀ r, r ∈ rows d → cell d c r ∉ s) →
  rows (filter_step d (c, s)) = [].
Proof.
  intros Hc Hs Hnone. rewrite filter_step_rows.
  apply filter_none. intros r Hr Htest. by apply (Hnone r Hr), Htest.
Qed.

Lemma selection_without_match_leaves_no_row_witness :
  "Department" ∈ columns scenario
  ∧ [VStr "C"] ≠ []
  ∧ rows (filter_step scenario ("Department", [VStr "C"])) = [].
Proof.
  split; [cbn; left|]. split; [discriminate|].
  apply (selection_without_match_leaves_no_row scenario "Department").
  - cbn. left.
  - discriminate.
  - intros r Hr. cbn in Hr. rewrite !elem_of_cons, elem_of_nil in Hr.
    destruct Hr as [->|[->|[->|[]]]]; cbn;
      rewrite list_elem_of_singleton; discriminate.
Defined.

(** ** Attrition rate (line 62) *)

Lemma count_true_le_length (bs : list bool) : (count_true bs ≤ length bs)%nat.
Proof. unfold count_true. apply length_filter. Qed.

Lemma mean_between_0_and_1 (bs : list bool) (q : Q) :
  mean bs = Some q → (0 <= q)%Q ∧ (q <= 1)%Q.
Proof.
  unfold mean. pose proof (count_true_le_length bs) as Hle.
  destruct bs as [|b bs]; [done|]. intros [= <-].
  cbn [length] in *. set (k := count_true (b :: bs)) in *. clearbody k.
  split; unfold Qle; cbn [Qnum Qden];
    rewrite <- ?Pos.of_nat_succ, ?Zpos_P_of_succ_nat; lia.
Qed.

(** X8: whenever line 62 yields a number, the rate lies between 0 and
    100. *)
Theorem attrition_rate_between_0_and_100 (fdf : DataFrame) (q : Q) :
  attrition_rate fdf = inr (Some q) → (0 <= q)%Q ∧ (q <= 100)%Q.
Proof.
  unfold attrition_rate. destruct (decide _) as [Hc|Hc]; [|done].
  destruct (str_accessor _ _) as [e|s]; [done|].
  destruct (mean _) as [m|] eqn:Hm; [|done].
  cbn. intros [= <-]. apply mean_between_0_and_1 in Hm as [H0 H1].
  split.
  - apply Qmult_le_0_compat; [done|exact H0].
  - rewrite <- (Qmult_1_r 100) at 2. by apply Qmult_le_l.
Qed.

Lemma attrition_rate_between_0_and_100_witness :
  attrition_rate scenario = inr (Some (100 * (1 # 3))%Q)
  ∧ (0 <= 100 * (1 # 3))%Q ∧ (100 * (1 # 3) <= 100)%Q.
Proof.
  split; [reflexivity|].
  exact (attrition_rate_between_0_and_100 scenario _ eq_refl).
Defined.

Lemma lower_ascii_y (a : ascii) :
  lower_ascii a = "y"%char ↔ a = "y"%char ∨ a = "Y"%char.
Proof.
  destruct a as [[] [] [] [] [] [] [] []]; vm_compute;
    (split; [intros [=]; tauto|intros [[=]|[=]]; reflexivity]).
Qed.

Lemma lower_ascii_e (a : ascii) :
  lower_ascii a = "e"%char ↔ a = "e"%char ∨ a = "E"%char.
Proof.
  destruct a as [[] [] [] [] [] [] [] []]; vm_compute;
    (split; [intros [=]; tauto|intros [[=]|[=]]; reflexivity]).
Qed.

Lemma lower_ascii_s (a : ascii) :
  lower_ascii a = "s"%char ↔ a = "s"%char ∨ a = "S"%char.
Proof.
  destruct a as [[] [] [] [] [] [] [] []]; vm_compute;
    (split; [intros [=]; tauto|intros [[=]|[=]]; reflexivity]).
Qed.

Lemma lower_yes (s : string) :
  lower s = "yes"
  ↔ s ∈ ["yes"; "yeS"; "yEs"; "yES"; "Yes"; "YeS"; "YEs"; "YES"].
Proof.
  rewrite !elem_of_cons, elem_of_nil.
  destruct s as [|a [|b [|c [|d s]]]]; cbn [lower];
    try (split; [intros [=]|intros H; repeat destruct H as [[=]|H]; done]).
  split.
  - intros [= Ha Hb Hc].
    apply lower_ascii_y in Ha as [-> | ->];
      apply lower_ascii_e in Hb as [-> | ->];
      apply lower_ascii_s in Hc as [-> | ->]; tauto.
  - intros H. repeat destruct H as [[= -> -> ->]|H]; done.
Qed.

(** X9: a row counts towards the rate exactly when its Attrition cell
    is the text yes in some mix of upper and lower case; every other
    cell (other text, a number, a boolean, a missing value) counts as
    not having left. *)
Theorem yes_is_counted_in_any_case (s : list value) :
  eq_value (str_lower s) (VStr "yes")
  = (λ v, bool_decide (v ∈ VStr <$> YES_SPELLINGS)) <$> s.
Proof.
  unfold eq_value, str_lower. rewrite <- list_fmap_compose.
  apply list_fmap_ext. intros i v _. unfold compose. cbn beta.
  apply bool_decide_ext.
  rewrite (list_elem_of_fmap VStr YES_SPELLINGS v).
  destruct v as [x|z|q|b|]; [|by split; [|intros (y & [=] & _)]..].
  split.
  - intros [= Hx]. exists x. split; [done|]. by apply lower_yes.
  - intros (y & [= ->] & Hy). f_equal. by apply lower_yes.
Qed.

(** ** The pivot builder (lines 176-186) *)

(** X10: whatever the session holds for the three controls, a pivot is
    only ever requested with a row and a column that are columns of the
    filtered table and with one of the five aggregations. *)
Theorem pivot_request_is_well_formed (fdf : DataFrame)
    (ss : gmap string widget_value) (row col agg : option string) :
  pivot_call fdf ss = Some (row, col, agg) →
  ∃ r c a, row = Some r ∧ col = Some c ∧ agg = Some a
           ∧ r ∈ columns fdf ∧ c ∈ columns fdf ∧ a ∈ AGGREGATIONS.
Proof.
  unfold pivot_call.
  destruct (truthy_str (selectbox ss (columns fdf) "row")) eqn:Hr; [|done].
  destruct (truthy_str (selectbox ss (columns fdf) "col")) eqn:Hc; [|done].
  cbn. intros [= <- <- <-].
  apply truthy_str_spec in Hr as (r & Hr & _).
  apply truthy_str_spec in Hc as (c & Hc & _).
  destruct (selectbox ss AGGREGATIONS "agg") as [a|] eqn:Ha.
  - exists r, c, a. repeat split; try done; by eapply selectbox_in_options.
  - exfalso. unfold selectbox in Ha.
    destruct (ss !! "agg") as [[l|x]|]; try done.
    by destruct (decide (x ∈ AGGREGATIONS)).
Qed.

Lemma pivot_request_is_well_formed_witness :
  pivot_call scenario_gender {[ "row" := WStr "Salary"; "agg" := WList [] ]}
  = Some (Some "Department", Some "Department", Some "count")
  ∧ ∃ r c a, Some "Department" = Some r ∧ Some "Department" = Some c
             ∧ Some "count" = Some a
             ∧ r ∈ columns scenario_gender ∧ c ∈ columns scenario_gender
             ∧ a ∈ AGGREGATIONS.
Proof.
  split; [reflexivity|].
  exact (pivot_request_is_well_formed scenario_gender
           {[ "row" := WStr "Salary"; "agg" := WList [] ]} _ _ _ eq_refl).
Defined.

(** ** Where a render pass stops (lines 62 and 174) *)

Lemma index_of_elem (c : string) (names : list string) (i : nat) :
  index_of c names = Some i → c ∈ names.
Proof.
  revert i. induction names as [|n names IH]; intros i; [done|]. cbn.
  destruct (decide (c = n)) as [->|Hne]; [left|].
  destruct (index_of c names) as [j|]; [|done].
  intros _. right. by eapply IH.
Qed.

Lemma dtype_of_filtered df sel c :
  dtype_of (filtered_df df sel) c = dtype_of df c.
Proof.
  unfold dtype_of, columns, filtered_df. by rewrite apply_filters_schema.
Qed.

Lemma attrition_rate_not_text (fdf : DataFrame) :
  ¬ text_attrition fdf →
  ∃ msg, attrition_rate fdf = inl (AttributeError msg).
Proof.
  intros Hdt. apply attrition_rate_refused. by intros [Ht _].
Qed.

(** Without a column the blocks hold no figure. *)
Lemma no_figure_without_columns {Pivot : Type}
    (drawing_error : DataFrame → figure → option Exception)
    (float_repr : Qc → string) (fdf : DataFrame) (rate : option Q) :
  columns fdf = [] →
  all_drawn drawing_error fdf (tabs float_repr fdf rate : @output Pivot).
Proof.
  intros Hnil [t e] fg Hin Hfg. exfalso. cbn in Hfg.
  assert (Hitems :
    items (tabs float_repr fdf rate : @output Pivot)
    = IMetric RATE_LABEL (format_rate rate)
      :: charts_of fdf overview_views
      ++ charts_of fdf breakdown_views
      ++ (charts_of fdf drivers_views ++ heatmap_item fdf)
      ++ charts_of fdf demographics_views).
  { unfold tabs. rewrite !items_app, items_overview, items_breakdown,
      items_drivers, items_demographics.
    change (items (downloads float_repr fdf)) with (@nil item).
    by rewrite app_nil_r. }
  assert (Hitem : ∃ i, item_of e = Some i
                       ∧ match i with IMetric _ _ => False | _ => True end).
  { destruct e; try discriminate Hfg; eexists; (split; [reflexivity|done]). }
  destruct Hitem as (i & Hi & Hkind).
  assert (Hin' : i ∈ items (tabs float_repr fdf rate : @output Pivot)).
  { apply list_elem_of_omap. by exists (t, e). }
  rewrite Hitems in Hin'.
  apply (elem_of_page_items drawing_error (Pivot := Pivot)
           (λ _ _ _ _, inl (AttributeError EmptyString))) in Hin'.
  destruct i as [title|cols|lbl m]; [| |done].
  - destruct Hin' as (v & _ & Hall).
    assert (Hc : ∃ c, c ∈ view_columns v) by (destruct v; eexists; left).
    destruct Hc as [c Hc]. specialize (Hall c Hc). rewrite Hnil in Hall.
    by apply elem_of_nil in Hall.
  - destruct Hin' as [_ Hlt]. unfold num_cols, columns in *.
    apply fmap_nil_inv in Hnil. rewrite Hnil in Hlt. cbn in Hlt. lia.
Qed.

Section RenderOutcome.

Variable float_repr : Qc → string.
Variable drawing_error : DataFrame → figure → option Exception.
Context {Pivot : Type}.
Variable pd_pivot_table :
  DataFrame → option string → option string → option string
  → Exception + Pivot.

Local Abbreviation run :=
  (@render float_repr drawing_error Pivot pd_pivot_table).

(** X11: a render pass runs to its end only if the Attrition column of
    the loaded table, when there is one, has the object dtype and the
    table has a column.  On a numeric or boolean Attrition column the
    pass stops at line 62 with an AttributeError: the sidebar, the
    heading and the two opening lines of the first tab are on the page,
    and nothing else (no metric, no chart, no download button, no pivot
    builder).  On a table without columns it stops at line 174 with a
    ValueError, after the download button. *)
Theorem render_stops_at_rate_or_summary (df : DataFrame)
    (ss : gmap string widget_value) :
  let sel := sidebar_selections df ss in
  let fdf := filtered_df df sel in
  ((run df ss).1 = inr () → text_attrition df ∧ columns df ≠ [])
  ∧ (¬ text_attrition df →
     ∃ msg, run df ss
            = (inl (AttributeError msg),
               sidebar df sel ++ heading ++ overview_head))
  ∧ (columns df = [] →
     ∃ msg, run df ss
            = (inl (ValueError msg),
               sidebar df sel ++ heading ++ overview_head
               ++ overview fdf None ++ breakdown fdf ++ drivers fdf
               ++ demographics fdf ++ downloads float_repr fdf)).
Proof.
  intros sel fdf.
  assert (Htext : text_attrition fdf ↔ text_attrition df).
  { unfold text_attrition, fdf. by rewrite dtype_of_filtered. }
  assert (Hcols : columns fdf = columns df) by apply filtered_df_columns.
  assert (Hstop : ¬ text_attrition df →
     ∃ msg, run df ss
            = (inl (AttributeError msg),
               sidebar df sel ++ heading ++ overview_head)).
  { intros Hnt. rewrite <- Htext in Hnt.
    destruct (attrition_rate_not_text fdf Hnt) as [msg Hmsg].
    exists msg. by apply render_stops_at_rate. }
  assert (Hnone : columns df = [] →
     ∃ msg, run df ss
            = (inl (ValueError msg),
               sidebar df sel ++ heading ++ overview_head
               ++ overview fdf None ++ breakdown fdf ++ drivers fdf
               ++ demographics fdf ++ downloads float_repr fdf)).
  { intros Hnil. eexists. apply render_stops_at_describe.
    - unfold attrition_rate. fold sel. fold fdf. rewrite Hcols, Hnil.
      by rewrite decide_False by apply not_elem_of_nil.
    - fold sel. fold fdf. apply no_figure_without_columns.
      by rewrite Hcols.
    - unfold describe. fold sel. fold fdf. by rewrite Hcols, Hnil. }
  split; [|by split].
  intros Hrun. split.
  - destruct (decide (text_attrition df)) as [Ht|Hnt]; [done|].
    destruct (Hstop Hnt) as [msg Hmsg]. by rewrite Hmsg in Hrun.
  - intros Hnil. destruct (Hnone Hnil) as [msg Hmsg].
    by rewrite Hmsg in Hrun.
Qed.

End RenderOutcome.

(** ** Cross-tabulation (lines 72, 106, 114) *)

Lemma elem_of_crosstab_pairs (a b : list value) (g c : value) :
  (g, c) ∈ crosstab_pairs a b ↔ (g, c) ∈ zip a b ∧ g ≠ VNaN ∧ c ≠ VNaN.
Proof.
  unfold crosstab_pairs. rewrite list_elem_of_filter. unfold notna. cbn.
  tauto.
Qed.

(** X12: the row labels of a cross-tabulation are, each once, the values
    of the first series that occur in a record where neither series is
    missing; likewise the column labels for the second series.  A missing
    value is never a label, and the table of shares has one row per row
    label and one entry per column label in every row. *)
Theorem crosstab_labels_are_the_groups (a b : list value) :
  let ct := crosstab a b in
  NoDup (ct_index ct) ∧ NoDup (ct_columns ct)
  ∧ (∀ g, g ∈ ct_index ct ↔ ∃ c, (g, c) ∈ zip a b ∧ g ≠ VNaN ∧ c ≠ VNaN)
  ∧ (∀ c, c ∈ ct_columns ct ↔ ∃ g, (g, c) ∈ zip a b ∧ g ≠ VNaN ∧ c ≠ VNaN)
  ∧ (VNaN ∉ ct_index ct) ∧ (VNaN ∉ ct_columns ct)
  ∧ length (ct_values ct) = length (ct_index ct)
  ∧ Forall (λ shares, length shares = length (ct_columns ct)) (ct_values ct).
Proof.
  cbn.
  assert (Hidx : ∀ g, g ∈ sort_values (unique (crosstab_pairs a b).*1)
                      ↔ ∃ c, (g, c) ∈ zip a b ∧ g ≠ VNaN ∧ c ≠ VNaN).
  { intros g. rewrite elem_of_sort_values, elem_of_unique, list_elem_of_fmap.
    split.
    - intros ([g' c] & -> & Hin). exists c. by apply elem_of_crosstab_pairs.
    - intros (c & Hin). exists (g, c). split; [done|].
      by apply elem_of_crosstab_pairs. }
  assert (Hcol : ∀ c, c ∈ sort_values (unique (crosstab_pairs a b).*2)
                      ↔ ∃ g, (g, c) ∈ zip a b ∧ g ≠ VNaN ∧ c ≠ VNaN).
  { intros c. rewrite elem_of_sort_values, elem_of_unique, list_elem_of_fmap.
    split.
    - intros ([g c'] & -> & Hin). exists g. by apply elem_of_crosstab_pairs.
    - intros (g & Hin). exists (g, c). split; [done|].
      by apply elem_of_crosstab_pairs. }
  repeat split.
  - unfold sort_values. rewrite merge_sort_Permutation. apply NoDup_unique.
  - unfold sort_values. rewrite merge_sort_Permutation. apply NoDup_unique.
  - by apply Hidx.
  - by apply Hidx.
  - by apply Hcol.
  - by apply Hcol.
  - intros (c & _ & Hg & _)%Hidx. done.
  - intros (g & _ & _ & Hc)%Hcol. done.
  - by rewrite length_fmap.
  - apply Forall_fmap, Forall_forall. intros g _. cbn.
    unfold normalize_row. by rewrite !length_fmap.
Qed.

Lemma sum_list_fmap_add {A} (f h : A → nat) (l : list A) :
  sum_list ((λ x, f x + h x) <$> l) = sum_list (f <$> l) + sum_list (h <$> l).
Proof. induction l as [|x l IH]; [done|]. rewrite !fmap_cons. cbn. lia. Qed.

Lemma sum_list_indicator_absent (x : value) (cols : list value) :
  x ∉ cols →
  sum_list ((λ c, if decide (x = c) then 1 else 0) <$> cols) = 0.
Proof.
  induction cols as [|c cols IH]; [done|].
  rewrite not_elem_of_cons. intros [Hne Hnin]. rewrite fmap_cons. cbn.
  rewrite decide_False by done. by rewrite IH.
Qed.

Lemma sum_list_indicator (x : value) (cols : list value) :
  NoDup cols → x ∈ cols →
  sum_list ((λ c, if decide (x = c) then 1 else 0) <$> cols) = 1.
Proof.
  induction 1 as [|c cols Hnin Hnd IH]; [by intros ?%elem_of_nil|].
  rewrite elem_of_cons, fmap_cons. cbn. intros [->|Hin].
  - rewrite decide_True by done. by rewrite sum_list_indicator_absent.
  - rewrite decide_False by (by intros ->). by rewrite IH.
Qed.

Lemma sum_count_pair (ps : list (value * value)) (g : value)
    (cols : list value) :
  NoDup cols → (∀ p, p ∈ ps → p.2 ∈ cols) →
  sum_list (count_pair ps g <$> cols) = length (filter (λ p, p.1 = g) ps).
Proof.
  intros Hnd. induction ps as [|[g' c'] ps IH]; intros Hall.
  - cbn. clear. induction cols as [|c cols IH]; [done|].
    by rewrite fmap_cons.
  - rewrite (list_fmap_ext (count_pair ((g', c') :: ps) g)
               (λ c, (if decide (g' = g)
                      then (if decide (c' = c) then 1 else 0) else 0)
                     + count_pair ps g c) cols).
    2:{ intros i c _. unfold count_pair. rewrite filter_cons.
        destruct (decide (g' = g)) as [->|Hg].
        - destruct (decide (c' = c)) as [->|Hc].
          + by rewrite decide_True.
          + rewrite decide_False; [done|]. by intros [= ?].
        - rewrite decide_False; [done|]. by intros [= ? ?]. }
    rewrite sum_list_fmap_add, IH by (intros p Hp; apply Hall; by right).
    rewrite filter_cons. cbn [fst].
    assert (Hc' : c' ∈ cols) by (apply (Hall (g', c')); left).
    destruct (decide (g' = g)) as [->|Hg].
    + by rewrite sum_list_indicator.
    + cbn [length]. f_equal. clear. induction cols as [|c cols IH]; [done|].
      by rewrite fmap_cons.
Qed.

(** X13: the entry of a cross-tabulation under row label [g] and column
    label [c] is the number of records (with neither value missing) that
    carry both labels, divided by the number of such records that carry
    [g]; that number is positive. *)
Theorem crosstab_entry_is_share_of_group (a b : list value) (i j : nat)
    (g c : value) :
  let ct := crosstab a b in
  let ps := crosstab_pairs a b in
  let group := length (filter (λ p, p.1 = g) ps) in
  ct_index ct !! i = Some g →
  ct_columns ct !! j = Some c →
  (0 < group)%nat
  ∧ (ct_values ct !! i ≫= (.!! j))
    = Some (inject_Z (Z.of_nat (count_pair ps g c))
            / inject_Z (Z.of_nat group))%Q.
Proof.
  intros ct ps group Hi Hj.
  assert (Hsum : sum_list (count_pair ps g <$> ct_columns ct) = group).
  { apply sum_count_pair.
    - cbn. unfold sort_values. rewrite merge_sort_Permutation.
      apply NoDup_unique.
    - intros p Hp. cbn. rewrite elem_of_sort_values, elem_of_unique.
      apply list_elem_of_fmap. by exists p. }
  split.
  - rewrite <- Hsum. apply crosstab_row_total_pos.
    by eapply list_elem_of_lookup_2.
  - cbn [ct_values ct crosstab]. fold ps. rewrite list_lookup_fmap.
    change (sort_values (unique ps.*1)) with (ct_index ct).
    rewrite Hi. cbn [fmap option_fmap option_map mbind option_bind].
    unfold normalize_row. rewrite list_lookup_fmap.
    change (sort_values (unique ps.*2)) with (ct_columns ct).
    rewrite list_lookup_fmap, Hj. cbn [fmap option_fmap option_map].
    by rewrite Hsum.
Qed.

Lemma crosstab_entry_is_share_of_group_witness :
  let a := getitem (filtered_df scenario only_A) "Department" in
  let b := getitem (filtered_df scenario only_A) "Attrition" in
  (0 < length (filter (λ p, p.1 = VStr "A") (crosstab_pairs a b)))%nat
  ∧ (ct_values (crosstab a b) !! 0 ≫= (.!! 1))
    = Some (inject_Z (Z.of_nat (count_pair (crosstab_pairs a b)
                                           (VStr "A") (VStr "Yes")))
            / inject_Z (Z.of_nat
                (length (filter (λ p, p.1 = VStr "A")
                                (crosstab_pairs a b)))))%Q.
Proof.
  intros a b.
  exact (crosstab_entry_is_share_of_group a b 0 1 (VStr "A") (VStr "Yes")
           eq_refl eq_refl).
Defined.

(** ** Charts reflect the filters (lines 44-45 with 66-156) *)

Lemma filtered_cell df sel c r :
  cell (filtered_df df sel) c r = cell df c r.
Proof. apply cell_schema. unfold filtered_df. apply apply_filters_schema. Qed.

(** X14: once a non-empty selection is made for a filterable column of
    the table, that column holds only selected values in the filtered
    table; so the groups of a cross-tabulation over that column are
    selected values, whatever the other filters are. *)
Theorem filtered_column_holds_selected_values (df : DataFrame)
    (sel : Selections) (c : string) (s b : list value) :
  (c, s) ∈ filter_pairs sel →
  c ∈ columns df →
  s ≠ [] →
  let fdf := filtered_df df sel in
  (∀ v, v ∈ getitem fdf c → v ∈ s)
  ∧ (∀ g, g ∈ ct_index (crosstab (getitem fdf c) b) → g ∈ s).
Proof.
  intros Hcs Hc Hs fdf.
  assert (Hcol : ∀ v, v ∈ getitem fdf c → v ∈ s).
  { intros v. unfold getitem. rewrite list_elem_of_fmap.
    intros (r & -> & Hr). unfold fdf, filtered_df in Hr.
    rewrite apply_filters_rows in Hr.
    apply list_elem_of_filter in Hr as [Hpass _].
    unfold row_passes in Hpass. rewrite Forall_forall in Hpass.
    unfold fdf. rewrite filtered_cell. by apply (Hpass (c, s) Hcs). }
  split; [done|].
  intros g. cbn. rewrite elem_of_sort_values, elem_of_unique, list_elem_of_fmap.
  intros ([g' c'] & -> & Hin). cbn. apply Hcol.
  apply elem_of_crosstab_pairs in Hin as [Hin _].
  by apply elem_of_zip_l in Hin.
Qed.

Lemma filtered_column_holds_selected_values_witness :
  ("Department", [VStr "A"]) ∈ filter_pairs only_A
  ∧ "Department" ∈ columns scenario
  ∧ (∀ v, v ∈ getitem (filtered_df scenario only_A) "Department"
          → v ∈ [VStr "A"])
  ∧ (∀ g, g ∈ ct_index (crosstab
                 (getitem (filtered_df scenario only_A) "Department")
                 (getitem (filtered_df scenario only_A) "Attrition"))
          → g ∈ [VStr "A"]).
Proof.
  assert (Hcs : ("Department", [VStr "A"]) ∈ filter_pairs only_A) by left.
  assert (Hc : "Department" ∈ columns scenario) by left.
  assert (Hs : [VStr "A"] ≠ []) by discriminate.
  split; [exact Hcs|]. split; [exact Hc|].
  exact (filtered_column_holds_selected_values scenario only_A "Department"
           [VStr "A"] _ Hcs Hc Hs).
Defined.

(** ** When the filters leave no row *)

(** X15: when no row passes the filters, nothing fails: the rate is not
    available, every cross-tabulation is empty (no group, no bar), the
    export is the header alone and the summary counts 0 in every
    column. *)
Theorem empty_filtered_table_is_handled (float_repr : Qc → string)
    (fdf : DataFrame) :
  rows fdf = [] →
  (text_attrition fdf → attrition_rate fdf = inr None)
  ∧ (∀ a b, crosstab (getitem fdf a) (getitem fdf b)
            = {| ct_index := []; ct_columns := []; ct_values := [] |})
  ∧ to_csv float_repr fdf = [columns fdf]
  ∧ (columns fdf ≠ [] →
     describe fdf = inr ((λ c, (c, 0)) <$> columns fdf)).
Proof.
  intros Hrows. repeat split.
  - intros Ht. rewrite attrition_rate_applies by by apply no_rows_apply.
    unfold spec_rate. rewrite decide_False; [done|]. by intros [_ Hne].
  - intros a b. unfold getitem. by rewrite Hrows.
  - unfold to_csv. by rewrite Hrows.
  - unfold describe, getitem. rewrite Hrows.
    by destruct (columns fdf).
Qed.

Lemma empty_filtered_table_is_handled_witness :
  let fdf := filtered_df scenario_gender B_and_M in
  rows fdf = []
  ∧ attrition_rate fdf = inr None
  ∧ to_csv sample_float_repr fdf = [["Department"; "Attrition"; "Gender"]]
  ∧ describe fdf = inr [("Department", 0); ("Attrition", 0); ("Gender", 0)].
Proof.
  intros fdf.
  assert (Hrows : rows fdf = []) by reflexivity.
  assert (Ht : text_attrition fdf) by reflexivity.
  assert (Hc : columns fdf ≠ []) by discriminate.
  destruct (empty_filtered_table_is_handled sample_float_repr fdf Hrows)
    as (Hrate & _ & Hcsv & Hsum).
  split; [exact Hrows|]. split; [exact (Hrate Ht)|].
  split; [exact Hcsv|exact (Hsum Hc)].
Defined.

(** ** Summary and export of the filtered table (lines 165 and 174) *)

Lemma sublist_filter_mono {A} (P : A → Prop) `{∀ x, Decision (P x)}
    (l1 l2 : list A) :
  l1 `sublist_of` l2 → filter P l1 `sublist_of` filter P l2.
Proof.
  induction 1 as [|x l1 l2 _ IH|x l1 l2 _ IH]; [constructor| |].
  - rewrite !filter_cons. destruct (decide (P x)); [by constructor|done].
  - rewrite filter_cons. destruct (decide (P x)); [by constructor|done].
Qed.

Lemma getitem_filtered_sublist df sel c :
  getitem (filtered_df df sel) c `sublist_of` getitem df c.
Proof.
  unfold getitem.
  rewrite (list_fmap_ext (cell (filtered_df df sel) c) (cell df c)
             (rows (filtered_df df sel)))
    by (intros i r _; apply filtered_cell).
  apply fmap_sublist, filtered_rows_sublist.
Qed.

Lemma fmap_fst_pair {A B} (f : A → B) (l : list A) :
  ((λ c, (c, f c)) <$> l).*1 = l.
Proof. induction l as [|x l IH]; [done|]. cbn. by f_equal. Qed.

Lemma count_notna_le_length (s : list value) : (count_notna s ≤ length s)%nat.
Proof. unfold count_notna. apply length_filter. Qed.

(** X16: the summary has one count per column of the table, in column
    order, before and after filtering; the count of a column is at most
    the number of rows, and filtering never raises a count. *)
Theorem summary_counts_shrink_with_filtering (df : DataFrame)
    (sel : Selections) :
  columns df ≠ [] →
  let fdf := filtered_df df sel in
  ∃ s s', describe df = inr s ∧ describe fdf = inr s'
          ∧ s.*1 = columns df ∧ s'.*1 = columns df
          ∧ Forall (λ p, (p.2 ≤ length (rows fdf))%nat) s'
          ∧ Forall2 (λ p' p, p'.1 = p.1 ∧ (p'.2 ≤ p.2)%nat) s' s.
Proof.
  intros Hne fdf.
  exists ((λ c, (c, count_notna (getitem df c))) <$> columns df),
         ((λ c, (c, count_notna (getitem fdf c))) <$> columns df).
  assert (Hcols : columns fdf = columns df) by apply filtered_df_columns.
  repeat split.
  - unfold describe. by destruct (columns df).
  - unfold describe. rewrite Hcols. by destruct (columns df).
  - apply fmap_fst_pair.
  - apply fmap_fst_pair.
  - apply Forall_fmap, Forall_forall. intros c _. cbn.
    etrans; [apply count_notna_le_length|]. unfold getitem.
    by rewrite length_fmap.
  - apply Forall2_fmap, Forall2_same_length_lookup_2; [done|].
    intros i c c' Hc Hc'. simplify_eq. cbn. split; [done|].
    unfold count_notna. apply sublist_length, sublist_filter_mono.
    apply getitem_filtered_sublist.
Qed.

Lemma summary_counts_shrink_with_filtering_witness :
  columns scenario ≠ []
  ∧ ∃ s s', describe scenario = inr s
            ∧ describe (filtered_df scenario only_A) = inr s'
            ∧ s.*1 = columns scenario ∧ s'.*1 = columns scenario
            ∧ Forall (λ p, (p.2 ≤ length (rows (filtered_df scenario only_A)))%nat)
                     s'
            ∧ Forall2 (λ p' p, p'.1 = p.1 ∧ (p'.2 ≤ p.2)%nat) s' s.
Proof.
  assert (Hne : columns scenario ≠ []) by discriminate.
  split; [exact Hne|].
  exact (summary_counts_shrink_with_filtering scenario only_A Hne).
Defined.

(** X17: the download is the header of the loaded table followed by one
    record per filtered row, in row order: its records are a
    subsequence of the records of the whole table's export, and when
    every row has one cell per column every record has one field per
    column. *)
Theorem export_is_header_and_filtered_records (float_repr : Qc → string)
    (df : DataFrame) (sel : Selections) :
  let fdf := filtered_df df sel in
  head (to_csv float_repr fdf) = Some (columns df)
  ∧ length (to_csv float_repr fdf) = S (length (rows fdf))
  ∧ (tail (to_csv float_repr fdf) `sublist_of` tail (to_csv float_repr df))
  ∧ (rectangular df →
     Forall (λ rec, length rec = length (columns df))
            (to_csv float_repr fdf)).
Proof.
  intros fdf. unfold to_csv. cbn [head tail length].
  assert (Hcols : columns fdf = columns df) by apply filtered_df_columns.
  repeat split.
  - by rewrite Hcols.
  - by rewrite length_fmap.
  - apply fmap_sublist, filtered_rows_sublist.
  - intros Hrect. rewrite Hcols. constructor; [done|].
    apply Forall_fmap, Forall_forall. intros r Hr. cbn.
    rewrite length_fmap. unfold rectangular in Hrect.
    rewrite Forall_forall in Hrect. unfold columns. rewrite length_fmap.
    apply Hrect. eapply sublist_subseteq; [|exact Hr].
    apply filtered_rows_sublist.
Qed.

(** ** The loaded table (lines 11-16) *)

Section Loading.

Variable parse_number : string → option number.
Variable read_irregular : list (list string) → Exception + DataFrame.

Local Abbreviation infer := (infer_kind parse_number).
Local Abbreviation conv := (convert parse_number).

Lemma load_regular (header : list string) (body : list (list string)) :
  regular header body →
  load_data parse_number read_irregular (header :: body)
  = inr (read_regular parse_number header body).
Proof.
  intros Hreg. unfold load_data, read_csv. by rewrite decide_True.
Qed.

Lemma read_regular_typed (header : list string) (body : list (list string))
    (j : nat) (c : column) :
  schema (read_regular parse_number header body) !! j = Some c →
  column_typed (col_dtype c)
               (column_cells (read_regular parse_number header body) j).
Proof.
  intros Hc. apply read_regular_dtype in Hc as (Hj & _ & ->).
  apply kind_fits_typed. rewrite read_regular_column by done.
  apply Forall_fmap, Forall_forall. intros f Hf. cbn.
  by apply convert_fits.
Qed.


End Loading.


Lemma column_typed_sublist (dt : dtype) (cs cs' : list value) :
  cs' `sublist_of` cs → column_typed dt cs → column_typed dt cs'.
Proof.
  intros Hsub.
  assert (Hall : ∀ P : value → Prop, Forall P cs → Forall P cs').
  { intros P. rewrite !Forall_forall. intros HP v Hv. apply HP.
    by eapply sublist_subseteq. }
  destruct dt; cbn; try (by apply Hall);
    (intros [H|H]; [left|right]); by apply Hall.
Qed.

(** X19: filtering keeps a table well formed (one cell per column in
    every row, cells that fit the dtype of their column), and the
    labels of the filtered rows are a subsequence of the labels of the
    table: each kept row still carries the number it had in the file. *)
Theorem filtering_keeps_table_well_formed (df : DataFrame)
    (sel : Selections) :
  well_formed df →
  let fdf := filtered_df df sel in
  well_formed fdf
  ∧ (label <$> rows fdf) `sublist_of` (label <$> rows df)
  ∧ (NoDup (label <$> rows df) → NoDup (label <$> rows fdf)).
Proof.
  intros [Hrect Htyped] fdf.
  assert (Hs : schema fdf = schema df)
    by (unfold fdf, filtered_df; apply apply_filters_schema).
  assert (Hsub : rows fdf `sublist_of` rows df)
    by apply filtered_rows_sublist.
  assert (Hlab : (label <$> rows fdf) `sublist_of` (label <$> rows df))
    by (by apply fmap_sublist).
  split; [split|split].
  - unfold rectangular in *. rewrite Hs. rewrite !Forall_forall in *.
    intros r Hr. apply Hrect. by eapply sublist_subseteq.
  - intros j c Hc. rewrite Hs in Hc.
    eapply column_typed_sublist; [|by apply Htyped].
    unfold column_cells. by apply fmap_sublist.
  - done.
  - intros Hnd. by eapply sublist_NoDup.
Qed.

Lemma filtering_keeps_table_well_formed_witness :
  well_formed scenario
  ∧ well_formed (filtered_df scenario only_A)
  ∧ (label <$> rows (filtered_df scenario only_A))
      `sublist_of` (label <$> rows scenario).
Proof.
  assert (Hwf : well_formed scenario).
  { split; [repeat constructor|].
    intros [|[|j]] c [= <-]; right; repeat constructor. }
  split; [exact Hwf|].
  destruct (filtering_keeps_table_well_formed scenario only_A Hwf)
    as (H1 & H2 & _).
  split; [exact H1|exact H2].
Defined.

Lemma index_of_lookup (c : string) (names : list string) (i : nat) :
  index_of c names = Some i → names !! i = Some c.
Proof.
  revert i. induction names as [|n names IH]; intros i; [done|]. cbn.
  destruct (decide (c = n)) as [->|Hne]; [by intros [= <-]|].
  destruct (index_of c names) as [j|]; [|done].
  intros [= <-]. by apply IH.
Qed.

Lemma Forall_sublist_of {A} (P : A → Prop) (l l' : list A) :
  l' `sublist_of` l → Forall P l → Forall P l'.
Proof.
  rewrite !Forall_forall. intros Hsub HP x Hx. apply HP.
  by eapply sublist_subseteq.
Qed.

Section LoadedRender.

Variable float_repr : Qc → string.
Variable drawing_error : DataFrame → figure → option Exception.
Variable parse_number : string → option number.
Variable read_irregular : list (list string) → Exception + DataFrame.
Context {Pivot : Type}.
Variable pd_pivot_table :
  DataFrame → option string → option string → option string
  → Exception + Pivot.

Local Abbreviation run := (render float_repr drawing_error pd_pivot_table).
Local Abbreviation infer := (infer_kind parse_number).
Local Abbreviation conv := (convert parse_number).

Lemma loaded_dtype (header : list string) (body : list (list string))
    (c : string) (j : nat) :
  index_of c header = Some j →
  dtype_of (read_regular parse_number header body) c
  = Some (kind_dtype (infer (column_fields body j))).
Proof.
  intros Hj. unfold dtype_of. rewrite read_regular_columns, Hj.
  cbn [mbind option_bind].
  pose proof (index_of_lookup _ _ _ Hj) as Hn.
  assert (Hlt : j < length header) by (by eapply lookup_lt_Some).
  unfold read_regular. cbn [schema].
  by rewrite lookup_zip_with, Hn, list_lookup_fmap, loaded_kind.
Qed.

Lemma loaded_getitem (header : list string) (body : list (list string))
    (c : string) (j : nat) :
  index_of c header = Some j →
  getitem (read_regular parse_number header body) c
  = conv (infer (column_fields body j)) <$> column_fields body j.
Proof.
  intros Hj.
  assert (Hlt : j < length header)
    by (eapply lookup_lt_Some, index_of_lookup, Hj).
  rewrite <- (read_regular_column parse_number header body j Hlt).
  unfold getitem, column_cells. apply list_fmap_ext. intros i r _.
  unfold cell. by rewrite read_regular_columns, Hj.
Qed.

(** A column with a plain word is a text column. *)
Lemma infer_plain_word (fields : list string) (f : string) :
  f ∈ fields → is_na f = false → parse_number f = None →
  parse_bool f = None → infer fields = KText.
Proof.
  intros Hin Hna Hnum Hbool.
  rewrite infer_kind_nonempty by (intros ->; by apply elem_of_nil in Hin).
  assert (Hb : boolean_field f = false).
  { unfold boolean_field. rewrite Hbool. apply bool_decide_eq_false_2.
    by intros [x Hx]. }
  rewrite (forallb_false_elem _ fields f Hin)
    by (apply number_or_na_false; by split).
  rewrite (forallb_false_elem _ fields f Hin) by done.
  rewrite (forallb_false_elem _ fields f Hin); [done|].
  unfold boolean_or_na. by rewrite Hna, Hb.
Qed.

(** A column with a record, of numbers and missing values or of boolean
    literals, is no object column. *)
Lemma infer_not_object (fields : list string) :
  fields ≠ [] →
  Forall (λ f, is_na f = true ∨ is_Some (parse_number f)) fields
  ∨ Forall (λ f, is_Some (parse_bool f)) fields →
  kind_dtype (infer fields) ≠ Object.
Proof.
  intros Hne Hall. rewrite infer_kind_nonempty by done.
  destruct (forallb (number_or_na parse_number) fields) eqn:Hnum.
  { by destruct (forallb (integer_field parse_number) fields). }
  destruct Hall as [Hall|Hall].
  - exfalso. apply forallb_false_exists in Hnum as (f & Hf & Hnf).
    apply number_or_na_false in Hnf as [Hna Hn].
    rewrite Forall_forall in Hall. destruct (Hall f Hf) as [H|H].
    + congruence.
    + rewrite Hn in H. by destruct H.
  - rewrite (proj2 (forallb_Forall boolean_field fields)); [done|].
    eapply Forall_impl; [exact Hall|]. intros f Hf.
    by apply boolean_field_spec.
Qed.

Lemma convert_text_labels (fields : list string) :
  Forall str_or_nan (conv KText <$> fields).
Proof.
  apply Forall_fmap, Forall_forall. intros f _. cbn. unfold convert.
  by destruct (is_na f).
Qed.


End LoadedRender.


(** ** Export of the loaded table, read back (lines 13 and 165) *)

Section LoadedRoundTrip.

Variable float_repr : Qc → string.
Variable parse_number : string → option number.
Variable read_irregular : list (list string) → Exception + DataFrame.

Hypothesis parse_number_bool : booleans_are_not_numbers parse_number.

Local Abbreviation infer := (infer_kind parse_number).
Local Abbreviation conv := (convert parse_number).
Local Abbreviation text := (cell_text float_repr).
Local Abbreviation reads_back := (reads_back float_repr parse_number).

Lemma loaded_column_fits (fields : list string) :
  Forall (kind_fits (infer fields)) (conv (infer fields) <$> fields).
Proof.
  apply Forall_fmap, Forall_forall. intros f Hf. by apply convert_fits.
Qed.

(** The kind inferred for a column is inferred again for what is
    written of it. *)
Lemma infer_written (fields : list string) :
  reads_back (conv (infer fields) <$> fields) →
  infer (text <$> (conv (infer fields) <$> fields)) = infer fields.
Proof.
  intros Hrb.
  destruct (decide (fields = [])) as [->|Hne]; [done|].
  pose proof (loaded_column_fits fields) as Hfit.
  pose proof (infer_kind_nonempty parse_number fields Hne) as Hk.
  set (k := infer fields) in *. clearbody k.
  assert (Hcs : conv k <$> fields ≠ []) by (by destruct fields).
  assert (Hin : ∀ f, f ∈ fields → conv k f ∈ conv k <$> fields).
  { intros f Hf. apply list_elem_of_fmap. by exists f. }
  destruct (forallb (number_or_na parse_number) fields) eqn:H1.
  { destruct (forallb (integer_field parse_number) fields); subst k.
    - by apply infer_ints.
    - by apply infer_floats. }
  apply forallb_false_exists in H1 as (f1 & Hf1 & Ht1).
  apply number_or_na_false in Ht1 as [Hna1 Hn1].
  rewrite infer_kind_nonempty by (by intros H%fmap_nil_inv).
  rewrite Forall_forall in Hfit.
  destruct (forallb boolean_field fields) eqn:H2.
  { subst k. cbn [kind_fits] in Hfit.
    destruct (Hfit _ (Hin f1 Hf1)) as [b1 Hb1].
    destruct (written_bool_tests float_repr parse_number parse_number_bool b1)
      as (Hnab & Hnb & Hpb).
    rewrite (forallb_fmap_false _ _ _ (conv KBoolean f1) (Hin f1 Hf1))
      by (rewrite Hb1; apply number_or_na_false; by split).
    rewrite forallb_fmap_true; [done|].
    intros v Hv. destruct (Hfit v Hv) as [b ->].
    apply boolean_field_spec. exists b. apply parse_bool_cell_text. }
  destruct (forallb boolean_or_na fields) eqn:H3.
  { subst k. cbn [kind_fits] in Hfit.
    apply forallb_Forall in H3. rewrite Forall_forall in H3.
    apply forallb_false_exists in H2 as (f2 & Hf2 & Ht2).
    assert (Hb1 : ∃ b, conv KBooleanNA f1 = VBool b).
    { pose proof (H3 f1 Hf1) as Ht. unfold boolean_or_na in Ht.
      rewrite Hna1 in Ht. cbn in Ht.
      apply boolean_field_spec in Ht as [b Hb]. exists b.
      unfold convert. by rewrite Hna1, Hb. }
    destruct Hb1 as [b1 Hb1].
    destruct (written_bool_tests float_repr parse_number parse_number_bool b1)
      as (Hnab & Hnb & Hpb).
    assert (Hc2 : conv KBooleanNA f2 = VNaN).
    { pose proof (H3 f2 Hf2) as Ht. unfold boolean_or_na in Ht.
      rewrite Ht2, orb_false_r in Ht. unfold convert. by rewrite Ht. }
    rewrite (forallb_fmap_false _ _ _ (conv KBooleanNA f1) (Hin f1 Hf1))
      by (rewrite Hb1; apply number_or_na_false; by split).
    rewrite (forallb_fmap_false _ _ _ (conv KBooleanNA f2) (Hin f2 Hf2))
      by (by rewrite Hc2).
    rewrite forallb_fmap_true; [done|].
    intros v Hv. specialize (Hfit v Hv). unfold boolean_or_na.
    destruct v as [s|z|x|b|]; cbn in Hfit; try done.
    rewrite (proj2 (boolean_field_spec _)); [apply orb_true_r|].
    exists b. apply parse_bool_cell_text. }
  subst k. cbn [kind_fits] in Hfit.
  apply forallb_false_exists in H3 as (f3 & Hf3 & Ht3).
  unfold boolean_or_na in Ht3. apply orb_false_iff in Ht3 as [Hna3 Hb3].
  assert (Hc1 : conv KText f1 = VStr f1) by (unfold convert; by rewrite Hna1).
  assert (Hc3 : conv KText f3 = VStr f3) by (unfold convert; by rewrite Hna3).
  rewrite (forallb_fmap_false _ _ _ (conv KText f1) (Hin f1 Hf1)).
  2:{ rewrite Hc1. apply number_or_na_false. cbn [cell_text]. by split. }
  rewrite (forallb_fmap_false _ _ _ (conv KText f3) (Hin f3 Hf3)).
  2:{ rewrite Hc3. by cbn [cell_text]. }
  rewrite (forallb_fmap_false _ _ _ (conv KText f3) (Hin f3 Hf3)); [done|].
  rewrite Hc3. cbn [cell_text]. unfold boolean_or_na. by rewrite Hna3, Hb3.
Qed.

(** Writing a converted field and converting it again changes nothing. *)
Lemma convert_written (fields : list string) (f : string) :
  reads_back (conv (infer fields) <$> fields) → f ∈ fields →
  conv (infer fields) (text (conv (infer fields) f))
  = conv (infer fields) f.
Proof.
  intros Hrb Hf. pose proof (loaded_column_fits fields) as Hfit.
  assert (Hin : conv (infer fields) f ∈ conv (infer fields) <$> fields).
  { apply list_elem_of_fmap. by exists f. }
  pose proof (proj1 (Forall_forall _ _) Hfit _ Hin) as Hc.
  set (k := infer fields) in *. clearbody k.
  destruct k; cbn [kind_fits] in Hfit, Hc.
  - apply convert_number with (cs := conv KInt <$> fields); [left|..]; done.
  - apply convert_number with (cs := conv KFloat <$> fields); [right|..];
      done.
  - apply convert_boolean; [done|by left|]. by destruct Hc as [b ->].
  - apply convert_boolean; [done|by right|done].
  - by apply convert_text.
Qed.


End LoadedRoundTrip.

Lemma parse_integer_reads_back (cs : list value) :
  (∀ x, VFloat x ∉ cs) → reads_back sample_float_repr parse_integer cs.
Proof.
  intros Hno. split.
  - intros z _. unfold parse_integer. by rewrite parse_decimal_number_text.
  - intros x Hx. by destruct (Hno x).
Qed.


(** ** Charts name existing columns (lines 66-156) *)

Section ChartArguments.

Variable float_repr : Qc → string.
Variable drawing_error : DataFrame → figure → option Exception.
Context {Pivot : Type}.
Variable pd_pivot_table :
  DataFrame → option string → option string → option string
  → Exception + Pivot.

Local Abbreviation output := (@output Pivot).
Local Abbreviation element := (@element Pivot).
Local Abbreviation shows := (@show_all drawing_error Pivot).
Local Abbreviation run :=
  (@render float_repr drawing_error Pivot pd_pivot_table).

Ltac guard_facts :=
  unfold has in *; cbn [forallb] in *;
  repeat match goal with
         | H : _ && _ = true |- _ =>
             let H1 := fresh in apply andb_true_iff in H as [H1 H]
         | H : bool_decide _ = true |- _ => apply bool_decide_eq_true in H
         end.

Ltac drawable_block :=
  unfold guarded;
  lazymatch goal with
  | |- Forall _ (if ?b then _ else _) =>
      let Hg := fresh "Hg" in
      destruct b eqn:Hg; [|by constructor];
      constructor; [|by constructor];
      unfold drawable; cbn [snd chart_columns option_list];
      try (guard_facts; by repeat constructor)
  | |- _ => by repeat constructor
  end.

Lemma overview_drawable (fdf : DataFrame) (rate : option Q) :
  Forall (drawable fdf) (overview fdf rate : output).
Proof. unfold overview. repeat (apply Forall_app; split); drawable_block. Qed.

Lemma breakdown_drawable (fdf : DataFrame) :
  Forall (drawable fdf) (breakdown fdf : output).
Proof. unfold breakdown. repeat (apply Forall_app; split); drawable_block. Qed.

Lemma drivers_drawable (fdf : DataFrame) :
  Forall (drawable fdf) (drivers fdf : output).
Proof.
  unfold drivers. repeat (apply Forall_app; split); drawable_block.
  split; [done|]. by apply Nat.ltb_lt in Hg.
Qed.

Lemma demographics_drawable (fdf : DataFrame) :
  Forall (drawable fdf) (demographics fdf : output).
Proof.
  unfold demographics. repeat (apply Forall_app; split); drawable_block.
  destruct (has fdf "Attrition") eqn:Ha; cbn [option_list];
    guard_facts; by repeat constructor.
Qed.

Ltac plain_piece := apply Forall_app; split; [by repeat constructor|].
Ltac tab_piece lem := apply Forall_app; split; [apply lem|].

Lemma tabs_drawable (fdf : DataFrame) (rate : option Q) :
  Forall (drawable fdf) (tabs float_repr fdf rate : output).
Proof.
  unfold tabs.
  tab_piece overview_drawable. tab_piece breakdown_drawable.
  tab_piece drivers_drawable. tab_piece demographics_drawable.
  by repeat constructor.
Qed.

(** A figure that is not drawn ends the pass. *)
Lemma render_stops_at_drawing (df : DataFrame)
    (ss : gmap string widget_value) (rate : option Q) (e : Exception)
    (out' : output) :
  let sel := sidebar_selections df ss in
  let fdf := filtered_df df sel in
  attrition_rate fdf = inr rate →
  shows fdf (tabs float_repr fdf rate)
        (sidebar df sel ++ heading ++ overview_head) = (inl e, out') →
  run df ss = (inl e, out').
Proof.
  intros sel fdf Hrate Hshow.
  unfold render, script, before_pivot, bind, emit, lift.
  fold sel. fold fdf. rewrite Hrate. unfold tabs in Hshow.
  cbn [app]. by rewrite Hshow.
Qed.

Lemma render_drawable (df : DataFrame) (ss : gmap string widget_value) :
  Forall (drawable (filtered_df df (sidebar_selections df ss)))
         (run df ss).2.
Proof.
  set (sel := sidebar_selections df ss). set (fdf := filtered_df df sel).
  destruct (attrition_rate fdf) as [e|rate] eqn:Hrate.
  { rewrite (render_stops_at_rate float_repr drawing_error pd_pivot_table
               df ss e Hrate).
    by repeat constructor. }
  destruct (shows fdf (tabs float_repr fdf rate)
                  (sidebar df sel ++ heading ++ overview_head))
    as [[e|[]] out'] eqn:Hshow.
  { rewrite (render_stops_at_drawing df ss rate e out' Hrate Hshow).
    cbn [snd].
    destruct (show_all_shown drawing_error (Pivot := Pivot) fdf
                (tabs float_repr fdf rate)
                (sidebar df sel ++ heading ++ overview_head))
      as (shown & rest & Htabs & Hout & _).
    rewrite Hshow in Hout. cbn [snd] in Hout. rewrite Hout.
    rewrite <- !app_assoc.
    plain_piece. plain_piece. plain_piece.
    pose proof (tabs_drawable fdf rate) as Hall.
    rewrite Htabs in Hall. by apply Forall_app in Hall as [Hall _]. }
  destruct (show_all_ended drawing_error _ _ _ _ Hshow) as [Hdrawn _].
  destruct (describe fdf) as [e|summary] eqn:Hsum.
  { rewrite (render_stops_at_describe float_repr drawing_error
               pd_pivot_table df ss rate e Hrate Hdrawn Hsum).
    cbn [snd]. fold sel. fold fdf.
    plain_piece. plain_piece. plain_piece.
    apply (tabs_drawable fdf rate). }
  rewrite (render_run float_repr drawing_error pd_pivot_table df ss rate
             summary Hrate Hdrawn Hsum).
  cbn [snd]. fold sel. fold fdf. unfold page_before_pivot. fold fdf.
  rewrite <- !app_assoc.
  plain_piece. plain_piece. plain_piece.
  tab_piece overview_drawable. tab_piece breakdown_drawable.
  tab_piece drivers_drawable. tab_piece demographics_drawable.
  plain_piece. plain_piece. plain_piece.
  apply Forall_app; split; [|by repeat constructor].
  unfold pivot_outcome.
  destruct (pivot_call fdf ss) as [[[row col] agg]|]; [|constructor].
  destruct (pd_pivot_table fdf row col agg); by repeat constructor.
Qed.

(** X22: whatever the table and the session, every chart on the page
    names only columns the table has (so no chart is asked to draw a
    missing column, the optional colouring of the Education histogram
    included), and a heatmap on the page is over all the numeric
    columns of the table, of which there are two or more. *)
Theorem charts_name_existing_columns (df : DataFrame)
    (ss : gmap string widget_value) :
  let out := (run df ss).2 in
  (∀ t c x, (t, StPlotlyChart c) ∈ out → x ∈ chart_columns c →
            x ∈ columns df)
  ∧ (∀ t cols, (t, StPyplotHeatmap cols) ∈ out →
               cols = num_cols df ∧ (2 ≤ length cols)%nat).
Proof.
  intros out. pose proof (render_drawable df ss) as Hall.
  fold out in Hall. rewrite Forall_forall in Hall. split.
  - intros t c x Hin Hx. specialize (Hall _ Hin). unfold drawable in Hall.
    cbn [snd] in Hall. rewrite Forall_forall in Hall.
    rewrite <- (filtered_df_columns df (sidebar_selections df ss)).
    by apply Hall.
  - intros t cols Hin. specialize (Hall _ Hin). unfold drawable in Hall.
    cbn [snd] in Hall. destruct Hall as [-> Hlen]. split; [|done].
    unfold num_cols, filtered_df. by rewrite apply_filters_schema.
Qed.

End ChartArguments.

(** ** One option at a time (lines 25-45) *)

Lemma length_filter_by_value (f : row → value) (vs : list value)
    (rs : list row) :
  NoDup vs → (∀ r, r ∈ rs → f r ∈ vs) →
  sum_list ((λ v, length (filter (λ r, f r = v) rs)) <$> vs) = length rs.
Proof.
  intros Hnd. induction rs as [|r rs IH]; intros Hall.
  - cbn. clear. induction vs as [|v vs IH]; [done|]. by rewrite fmap_cons.
  - rewrite (list_fmap_ext (λ v, length (filter (λ r, f r = v) (r :: rs)))
               (λ v, (if decide (f r = v) then 1 else 0)
                     + length (filter (λ r, f r = v) rs)) vs).
    2:{ intros i v _. rewrite filter_cons.
        by destruct (decide (f r = v)). }
    rewrite sum_list_fmap_add, IH by (intros r' Hr'; apply Hall; by right).
    rewrite sum_list_indicator; [done|done|]. apply Hall. left.
Qed.

(** X23: the options offered for a column split the table: selecting
    each option alone, one after the other, every row of the table is
    kept exactly once, so the row counts of the single-option tables add
    up to the row count of the table. *)
Theorem single_options_partition_the_table (d : DataFrame) (c : string) :
  c ∈ columns d →
  sum_list ((λ g, length (rows (filter_step d (c, [g]))))
              <$> safe_unique d c)
  = length (rows d)
  ∧ ∀ r, r ∈ rows d →
         ∃ g, g ∈ safe_unique d c
              ∧ r ∈ rows (filter_step d (c, [g]))
              ∧ ∀ g', r ∈ rows (filter_step d (c, [g'])) → g' = g.
Proof.
  intros Hc.
  assert (Hrows : ∀ g, rows (filter_step d (c, [g]))
                       = filter (λ r, cell d c r = g) (rows d)).
  { intros g. rewrite filter_step_rows. apply list_filter_iff.
    intros r. unfold column_test. cbn. rewrite list_elem_of_singleton.
    split; [|done]. intros H. by apply H. }
  split.
  - rewrite (list_fmap_ext (λ g, length (rows (filter_step d (c, [g]))))
               (λ g, length (filter (λ r, cell d c r = g) (rows d)))
               (safe_unique d c))
      by (intros i g _; by rewrite Hrows).
    apply length_filter_by_value.
    + unfold safe_unique. rewrite decide_True by done. apply NoDup_unique.
    + intros r Hr. apply elem_of_safe_unique; [done|].
      unfold getitem. apply list_elem_of_fmap. by exists r.
  - intros r Hr. exists (cell d c r). split; [|split].
    + apply elem_of_safe_unique; [done|].
      unfold getitem. apply list_elem_of_fmap. by exists r.
    + rewrite Hrows. by apply list_elem_of_filter.
    + intros g'. rewrite Hrows. by intros [<- _]%list_elem_of_filter.
Qed.

Lemma single_options_partition_the_table_witness :
  "Department" ∈ columns scenario
  ∧ sum_list ((λ g, length (rows (filter_step scenario ("Department", [g]))))
                <$> safe_unique scenario "Department")
    = length (rows scenario).
Proof.
  assert (Hc : "Department" ∈ columns scenario) by left.
  split; [exact Hc|].
  exact (proj1 (single_options_partition_the_table scenario "Department" Hc)).
Defined.
